(** * file_renamer.py: the batch rename pipeline

    A shallow embedding of [scripts/file_renamer.py].  Python [str] values
    are modelled as [string] whose characters are the code points U+0000 to
    U+00FF; the file system is a finite map from resolved paths to nodes;
    [print] calls append to an output log; what [datetime.now()] formats
    to while an entry is processed is given by a clock indexed by the
    entry's number.  Paths are taken from the root of the file system;
    there are no symbolic links, permissions or limits on name lengths. *)

From Stdlib Require Import ZArith NArith Bool List Ascii String Lia.
From Stdlib Require Import Sorted Permutation.
From stdpp Require Import base option list strings gmap sorting.

Local Open Scope string_scope.
Local Open Scope Z_scope.

(** ** Python string primitives used by the script *)

Module PyStr.

(** [len(s)] as an integer. *)
Definition len (s : string) : Z := Z.of_nat (String.length s).

(** [s[:i]] and [s[i:]] for an index [0 <= i]. *)
Fixpoint take (n : nat) (s : string) : string :=
  match n, s with
  | S k, String c s' => String c (take k s')
  | _, _ => ""
  end.

Fixpoint drop (n : nat) (s : string) : string :=
  match n, s with
  | S k, String _ s' => drop k s'
  | _, _ => s
  end.

(** [s.rfind(c)] for a one-character needle: the highest index holding
    [c], or [-1].  [i] is the index of the head of [s]. *)
Fixpoint rfind_from (c : ascii) (s : string) (i : Z) : Z :=
  match s with
  | "" => -1
  | String a s' =>
      let r := rfind_from c s' (i + 1) in
      if 0 <=? r then r else if Ascii.eqb a c then i else -1
  end.

Definition rfind (c : ascii) (s : string) : Z := rfind_from c s 0.

(** [s[i:i+1]], the empty string out of range. *)
Definition char_at (s : string) (i : Z) : option ascii :=
  if i <? 0 then None else String.get (Z.to_nat i) s.

(** [c in s] for a character [c]. *)
Fixpoint occurs (c : ascii) (s : string) : bool :=
  match s with
  | "" => false
  | String a s' => Ascii.eqb a c || occurs c s'
  end.

(** [all(p(c) for c in s)]. *)
Fixpoint all_chars (p : ascii -> bool) (s : string) : bool :=
  match s with
  | "" => true
  | String a s' => p a && all_chars p s'
  end.

(** [s.startswith(t)]. *)
Fixpoint startswith (t s : string) : bool :=
  match t, s with
  | "", _ => true
  | String a t', String b s' => Ascii.eqb a b && startswith t' s'
  | String _ _, "" => false
  end.

(** [s.replace("", new)]: [new] before every character and at the end. *)
Fixpoint replace_empty (new s : string) : string :=
  match s with
  | "" => new
  | String c s' => new ++ String c (replace_empty new s')
  end.

(** [s.replace(old, new)] for a non-empty [old]: occurrences are found
    left to right and do not overlap.  [skip] counts the characters of
    the occurrence just replaced that are still to be passed over. *)
Fixpoint replace_scan (old new s : string) (skip : nat) : string :=
  match s with
  | "" => ""
  | String c s' =>
      match skip with
      | S k => replace_scan old new s' k
      | O =>
          if startswith old s
          then new ++ replace_scan old new s' (String.length old - 1)
          else String c (replace_scan old new s' O)
      end
  end.

Definition replace (s old new : string) : string :=
  match old with
  | "" => replace_empty new s
  | _ => replace_scan old new s O
  end.

(** [str(n)] for a natural number: its decimal digits. *)
Definition digit (n : nat) : ascii := ascii_of_nat (48 + n).

Fixpoint str_loop (fuel n : nat) (acc : string) : string :=
  match fuel with
  | O => acc
  | S k =>
      let acc' := String (digit (n mod 10)) acc in
      if (n <? 10)%nat then acc' else str_loop k (n / 10) acc'
  end.

Definition str (n : nat) : string := str_loop (S n) n "".

(** [s.zfill(width)]: zeros on the left up to [width] characters, after
    a leading sign if there is one; [s] itself when it is long enough. *)
Fixpoint zeros (n : nat) : string :=
  match n with
  | O => ""
  | S k => String "0" (zeros k)
  end.

Definition zfill (s : string) (width : Z) : string :=
  let fill := Z.to_nat (width - len s) in
  match s with
  | String c s' =>
      if Ascii.eqb c "+" || Ascii.eqb c "-"
      then String c (zeros fill ++ s')
      else zeros fill ++ s
  | "" => zeros fill
  end.

End PyStr.

(** ** [os.path.splitext] on POSIX *)

Module OsPath.
Import PyStr.

(** The [while] loop of [genericpath._splitext]: is there a character
    other than the dot in [p[filenameIndex:dotIndex]]? *)
Fixpoint has_stem (p : string) (filenameIndex : Z) (steps : nat) : bool :=
  match steps with
  | O => false
  | S k =>
      match char_at p filenameIndex with
      | Some c =>
          if Ascii.eqb c "." then has_stem p (filenameIndex + 1) k else true
      | None => true
      end
  end.

Definition splitext (p : string) : string * string :=
  let sepIndex := rfind "/" p in
  let dotIndex := rfind "." p in
  if (sepIndex <? dotIndex)
     && has_stem p (sepIndex + 1) (Z.to_nat (dotIndex - (sepIndex + 1)))
  then (take (Z.to_nat dotIndex) p, drop (Z.to_nat dotIndex) p)
  else (p, "").

End OsPath.

(** ** The fragment of [re] used by [sanitize_filename] *)

Module Re.

Definition code (c : ascii) : N := N_of_ascii c.

Definition between (lo hi : N) (c : ascii) : bool :=
  ((lo <=? code c) && (code c <=? hi))%N.

(** [c.isalnum()] for the code points below 256. *)
Definition is_alnum (c : ascii) : bool :=
  between 48 57 c || between 65 90 c
  || between 97 122 c || between 170 170 c || between 178 179 c
  || between 181 181 c || between 185 186 c || between 188 190 c
  || between 192 214 c || between 216 246 c || between 248 255 c.

(** [\w] on a [str] pattern: [c.isalnum()] or the underscore. *)
Definition is_word (c : ascii) : bool :=
  is_alnum c || Ascii.eqb c "_".

(** [\s] on a [str] pattern: [c.isspace()] for the code points below
    256. *)
Definition is_space (c : ascii) : bool :=
  between 9 13 c || between 28 32 c || between 133 133 c
  || between 160 160 c.

(** The class [[^\w\s-]]. *)
Definition is_special (c : ascii) : bool :=
  negb (is_word c || is_space c || Ascii.eqb c "-").

Definition is_underscore (c : ascii) : bool := Ascii.eqb c "_".

(** The longest prefix of [s] in the class, and what follows it. *)
Fixpoint span (cls : ascii -> bool) (s : string) : string * string :=
  match s with
  | String c s' =>
      if cls c then let (m, r) := span cls s' in (String c m, r)
      else ("", s)
  | "" => ("", "")
  end.

(** The two shapes of pattern in the script: one character of a class,
    and a greedy non-empty run of a class. *)
Inductive pattern :=
| Class (cls : ascii -> bool)
| Plus (cls : ascii -> bool).

(** A match of the pattern at the head of [s]: what follows the match. *)
Definition match_at (r : pattern) (s : string) : option string :=
  match s with
  | "" => None
  | String c s' =>
      match r with
      | Class cls => if cls c then Some s' else None
      | Plus cls => if cls c then Some (snd (span cls s')) else None
      end
  end.

(** [re.sub(r, repl, s)]: leftmost matches, not overlapping, each
    replaced by [repl]; unmatched characters are copied. *)
Fixpoint sub_loop (fuel : nat) (r : pattern) (repl s : string) : string :=
  match fuel with
  | O => s
  | S k =>
      match s with
      | "" => ""
      | String c s' =>
          match match_at r s with
          | Some rest => repl ++ sub_loop k r repl rest
          | None => String c (sub_loop k r repl s')
          end
      end
  end.

Definition sub (r : pattern) (repl s : string) : string :=
  sub_loop (String.length s) r repl s.

End Re.

(** ** The transforms of the script *)

Import PyStr OsPath.

Definition add_prefix (filename prefix : string) : string :=
  prefix ++ filename.

Definition add_suffix (filename suffix : string) : string :=
  let (name, ext) := splitext filename in
  name ++ suffix ++ ext.

Definition replace_text (filename old_text new_text : string) : string :=
  replace filename old_text new_text.

Definition add_sequential_number (filename : string) (number : nat)
    (digits : Z) : string :=
  let (name, ext) := splitext filename in
  name ++ "_" ++ zfill (str number) digits ++ ext.

Definition add_date_stamp (date_str filename : string) : string :=
  let (name, ext) := splitext filename in
  name ++ "_" ++ date_str ++ ext.

Definition sanitize_filename (filename : string) : string :=
  let (name, ext) := splitext filename in
  let name := Re.sub (Re.Class Re.is_special) "" name in
  let name := Re.sub (Re.Plus Re.is_space) "_" name in
  let name := Re.sub (Re.Plus Re.is_underscore) "_" name in
  name ++ ext.


(** ** Paths and the file system *)

(** A path is its list of components below the root; the paths stored in
    the file system are resolved (no [".."] component). *)
Definition path := list string.

Inductive node :=
| File (content : string)
| Dir.

Abbreviation fs := (gmap (list string) node).

Inductive OSError :=
| FileNotFoundError
| NotADirectoryError
| IsADirectoryError.

Module PathLib.

(** [p.name]: the last component. *)
Definition name (p : path) : string := List.last p "".

(** [p.parent]: everything but the last component. *)
Definition parent (p : path) : path := List.removelast p.

(** Splitting a string at every ["/"]. *)
Fixpoint split_sep (s : string) (cur : string) : list string :=
  match s with
  | "" => [String.rev cur]
  | String c s' =>
      if Ascii.eqb c "/" then String.rev cur :: split_sep s' ""
      else split_sep s' (String c cur)
  end.

(** The components pathlib keeps: empty ones and ["."] are dropped. *)
Definition kept (c : string) : bool :=
  negb (String.eqb c "" || String.eqb c ".").

Definition parts (s : string) : list string :=
  List.filter kept (split_sep s "").

(** [p / s]: an absolute [s] replaces [p]. *)
Definition joinpath (p : path) (s : string) : path :=
  if startswith "/" s then parts s else (p ++ parts s)%list.

(** The order on [Path] objects: component by component, each component
    by code points. *)
Fixpoint compare (p q : path) : comparison :=
  match p, q with
  | [], [] => Eq
  | [], _ :: _ => Lt
  | _ :: _, [] => Gt
  | a :: p', b :: q' =>
      match String.compare a b with
      | Eq => compare p' q'
      | r => r
      end
  end.

Definition leb (p q : path) : bool :=
  match compare p q with Gt => false | _ => true end.

End PathLib.

Definition path_le (p q : path) : Prop := PathLib.leb p q = true.

(** [sorted(files)]: a stable sort by [PathLib.leb]. *)
Fixpoint sorted_insert (p : path) (l : list path) : list path :=
  match l with
  | [] => [p]
  | q :: l' => if PathLib.leb p q then p :: l else q :: sorted_insert p l'
  end.

Fixpoint sorted (l : list path) : list path :=
  match l with
  | [] => []
  | p :: l' => sorted_insert p (sorted l')
  end.

(** [enumerate(l, start)]. *)
Fixpoint enumerate {A} (start : nat) (l : list A) : list (nat * A) :=
  match l with
  | [] => []
  | x :: l' => (start, x) :: enumerate (S start) l'
  end.

Module Os.

(** The node at a resolved path; the root is a directory. *)
Definition node_at (m : fs) (p : path) : option node :=
  match p with
  | [] => Some Dir
  | _ => m !! p
  end.

Definition is_dir (m : fs) (p : path) : bool :=
  match node_at m p with Some Dir => true | _ => false end.

Definition is_file (m : fs) (p : path) : bool :=
  match node_at m p with Some (File _) => true | _ => false end.

(** Path resolution: every component is looked up in a directory, and
    [".."] steps to the parent. *)
Fixpoint resolve (m : fs) (cur : path) (comps : list string) : option path :=
  match comps with
  | [] => Some cur
  | c :: rest =>
      if is_dir m cur
      then resolve m (if String.eqb c ".." then PathLib.parent cur
                      else (cur ++ [c])%list) rest
      else None
  end.

Definition stat (m : fs) (p : path) : option node :=
  match resolve m [] p with
  | Some q => node_at m q
  | None => None
  end.

(** [Path.exists()]. *)
Definition exists_ (m : fs) (p : path) : bool :=
  match stat m p with Some _ => true | None => false end.

Definition is_prefix (d p : path) : bool :=
  (length d <? length p)%nat && bool_decide (List.firstn (length d) p = d).

(** [[f for f in d.iterdir() if f.is_file()]]; [iterdir] raises on
    something that is not a directory. *)
Definition iterdir_files (m : fs) (d : path) : OSError + list path :=
  match stat m d with
  | Some Dir =>
      inr (List.map fst
             (List.filter
                (fun e => bool_decide (PathLib.parent (fst e) = d)
                          && negb (bool_decide (fst e = []))
                          && match snd e with File _ => true | Dir => false end)
                (map_to_list m)))
  | Some (File _) => inl NotADirectoryError
  | None => inl FileNotFoundError
  end.

(** [[f for f in d.rglob('*') if f.is_file()]]; nothing is found below
    something that is not a directory. *)
Definition rglob_files (m : fs) (d : path) : list path :=
  match stat m d with
  | Some Dir =>
      List.map fst
        (List.filter
           (fun e => is_prefix d (fst e)
                     && match snd e with File _ => true | Dir => false end)
           (map_to_list m))
  | _ => []
  end.

(** [os.rename(src, dst)] for a regular file [src]: the target's
    directory has to exist, a directory is never replaced, a file is. *)
Definition rename (m : fs) (src dst : path) : OSError + fs :=
  match resolve m [] src, resolve m [] dst with
  | Some s, Some t =>
      match node_at m s with
      | Some (File content) =>
          match node_at m t with
          | Some Dir => inl IsADirectoryError
          | _ =>
              if is_dir m (PathLib.parent t)
              then inr (<[t := File content]> (delete s m))
              else inl FileNotFoundError
          end
      | Some Dir => inl IsADirectoryError
      | None => inl FileNotFoundError
      end
  | _, _ => inl FileNotFoundError
  end.

End Os.

(** ** The rename pipeline *)

(** The [pattern] dictionary: one optional entry per key the script reads. *)
Record Pattern := {
  p_sanitize : option bool;
  p_replace : option (string * string);
  p_prefix : option string;
  p_suffix : option string;
  p_sequential : option bool;
  p_digits : option Z;
  p_date : option bool;
  p_date_format : option string
}.

(** [{}] *)
Definition empty_pattern : Pattern :=
  {| p_sanitize := None; p_replace := None; p_prefix := None;
     p_suffix := None; p_sequential := None; p_digits := None;
     p_date := None; p_date_format := None |}.

(** Truth value of [pattern.get(key)]. *)
Definition truthy_flag (v : option bool) : bool :=
  match v with Some true => true | _ => false end.

Definition truthy_str (v : option string) : bool :=
  match v with Some (String _ _) => true | _ => false end.

(** Everything the script prints. *)
Inductive Msg :=
| MsgNoDirectory (directory : path)
| MsgNoFiles (directory : path)
| MsgHeader (dry_run : bool) (directory : path) (found : nat)
| MsgSkipping (old_name new_name : string)
| MsgPlan (old_name new_name : string)
| MsgRenameError (old_name : string) (e : OSError)
| MsgSummary (dry_run : bool) (renamed_count : nat)
| MsgHint
| MsgNoPattern
| MsgHelp.

(** A call of [os.rename] and whether it succeeded. *)
Inductive Syscall :=
| SysRename (src dst : path) (ok : bool).

Record World := {
  files : fs;
  stdout : list Msg;
  syscalls : list Syscall
}.

Definition print (m : Msg) (w : World) : World :=
  {| files := files w; stdout := (stdout w ++ [m])%list;
     syscalls := syscalls w |}.

(** [file_path.rename(new_path)]: the new world, or the error raised. *)
Definition path_rename (src dst : path) (w : World) : OSError * World + World :=
  match Os.rename (files w) src dst with
  | inr m =>
      inr {| files := m; stdout := stdout w;
             syscalls := (syscalls w ++ [SysRename src dst true])%list |}
  | inl e =>
      inl (e, {| files := files w; stdout := stdout w;
                 syscalls := (syscalls w ++ [SysRename src dst false])%list |})
  end.

(** The clock: [strftime_now idx fmt] is [datetime.now().strftime(fmt)] at
    the time entry number [idx] is processed. *)
Definition Clock := nat -> string -> string.

(** Lines 90 to 110: the new name of entry [idx]. *)
Definition transform (strftime_now : Clock) (pattern : Pattern) (idx : nat)
    (old_name : string) : string :=
  let new_name := old_name in
  let new_name :=
    if truthy_flag (p_sanitize pattern) then sanitize_filename new_name
    else new_name in
  let new_name :=
    match p_replace pattern with
    | Some (old_text, new_text) => replace_text new_name old_text new_text
    | None => new_name
    end in
  let new_name :=
    if truthy_str (p_prefix pattern)
    then add_prefix new_name (default "" (p_prefix pattern))
    else new_name in
  let new_name :=
    if truthy_str (p_suffix pattern)
    then add_suffix new_name (default "" (p_suffix pattern))
    else new_name in
  let new_name :=
    if truthy_flag (p_sequential pattern)
    then add_sequential_number new_name idx (default 3 (p_digits pattern))
    else new_name in
  let new_name :=
    if truthy_flag (p_date pattern)
    then add_date_stamp
           (strftime_now idx (default "%Y%m%d" (p_date_format pattern)))
           new_name
    else new_name in
  new_name.

(** Lines 89 to 129: the body of the loop, on the world and
    [renamed_count]. *)
Definition process_entry (strftime_now : Clock) (pattern : Pattern)
    (dry_run : bool) (st : World * nat) (entry : nat * path) : World * nat :=
  let (w, renamed_count) := st in
  let (idx, file_path) := entry in
  let old_name := PathLib.name file_path in
  let new_name := transform strftime_now pattern idx old_name in
  if String.eqb new_name old_name then (w, renamed_count)
  else
    let new_path := PathLib.joinpath (PathLib.parent file_path) new_name in
    if Os.exists_ (files w) new_path
    then (print (MsgSkipping old_name new_name) w, renamed_count)
    else
      let w := print (MsgPlan old_name new_name) w in
      if dry_run then (w, renamed_count)
      else
        match path_rename file_path new_path w with
        | inr w => (w, S renamed_count)
        | inl (e, w) => (print (MsgRenameError old_name e) w, renamed_count)
        end.

Definition rename_loop (strftime_now : Clock) (pattern : Pattern)
    (dry_run : bool) (entries : list (nat * path)) (st : World * nat)
    : World * nat :=
  List.fold_left (process_entry strftime_now pattern dry_run) entries st.

(** How a call ends: it returns, or an exception escapes. *)
Inductive Completion :=
| Returned
| Raised (e : OSError).

Definition list_files (m : fs) (directory : path) (recursive : bool)
    : OSError + list path :=
  if recursive then inr (Os.rglob_files m directory)
  else Os.iterdir_files m directory.

Definition rename_files (strftime_now : Clock) (directory : path)
    (pattern : Pattern) (dry_run recursive : bool) (w : World)
    : World * Completion :=
  if negb (Os.exists_ (files w) directory)
  then (print (MsgNoDirectory directory) w, Returned)
  else
    match list_files (files w) directory recursive with
    | inl e => (w, Raised e)
    | inr [] => (print (MsgNoFiles directory) w, Returned)
    | inr found =>
        let w := print (MsgHeader dry_run directory (length found)) w in
        let (w, renamed_count) :=
          rename_loop strftime_now pattern dry_run
            (enumerate 1 (sorted found)) (w, O) in
        let w := print (MsgSummary dry_run renamed_count) w in
        (if dry_run then print MsgHint w else w, Returned)
    end.

(** ** The command line *)

(** The namespace [parser.parse_args()] returns. *)
Record Args := {
  a_directory : path;
  a_prefix : option string;
  a_suffix : option string;
  a_replace : option (string * string);
  a_sequential : bool;
  a_digits : Z;
  a_date : bool;
  a_date_format : string;
  a_sanitize : bool;
  a_recursive : bool;
  a_execute : bool
}.

(** Lines 186 to 201. *)
Definition build_pattern (args : Args) : Pattern :=
  {| p_sanitize := if a_sanitize args then Some true else None;
     p_prefix := if truthy_str (a_prefix args) then a_prefix args else None;
     p_suffix := if truthy_str (a_suffix args) then a_suffix args else None;
     p_replace := a_replace args;
     p_sequential := if a_sequential args then Some true else None;
     p_digits := if a_sequential args then Some (a_digits args) else None;
     p_date := if a_date args then Some true else None;
     p_date_format :=
       if a_date args then Some (a_date_format args) else None |}.

(** [not pattern]: the dictionary has no key. *)
Definition is_empty_pattern (pattern : Pattern) : bool :=
  match pattern with
  | {| p_sanitize := None; p_replace := None; p_prefix := None;
       p_suffix := None; p_sequential := None; p_digits := None;
       p_date := None; p_date_format := None |} => true
  | _ => false
  end.

(** How the process ends. *)
Inductive Exit :=
| ExitCode (status : nat)
| Traceback (e : OSError).

Definition main (strftime_now : Clock) (args : Args) (w : World)
    : World * Exit :=
  let pattern := build_pattern args in
  if is_empty_pattern pattern
  then (print MsgHelp (print MsgNoPattern w), ExitCode 1)
  else
    match rename_files strftime_now (a_directory args) pattern
            (negb (a_execute args)) (a_recursive args) w with
    | (w, Returned) => (w, ExitCode 0)
    | (w, Raised e) => (w, Traceback e)
    end.

(** ** The specification's wording, for comparison with the code *)

Module Spec.

(** A character the sanitizer keeps: alphanumeric, whitespace, hyphen or
    underscore. *)
Definition kept_char (c : ascii) : bool :=
  Re.is_alnum c || Re.is_space c || Ascii.eqb c "-" || Ascii.eqb c "_".

Fixpoint remove_special (s : string) : string :=
  match s with
  | "" => ""
  | String c s' =>
      if kept_char c then String c (remove_special s') else remove_special s'
  end.

(** Every run of characters of the class becomes one underscore;
    [in_run] says that the previous character was in the class. *)
Fixpoint collapse_runs (cls : ascii -> bool) (in_run : bool) (s : string)
    : string :=
  match s with
  | "" => ""
  | String c s' =>
      if cls c
      then if in_run then collapse_runs cls true s'
           else String "_" (collapse_runs cls true s')
      else String c (collapse_runs cls false s')
  end.

(** A character that can stand in a sanitized base name. *)
Definition clean_char (c : ascii) : bool :=
  Re.is_alnum c || Ascii.eqb c "-" || Ascii.eqb c "_".

(** The base name after the three passes. *)
Definition clean (base : string) : string :=
  collapse_runs Re.is_underscore false
    (collapse_runs Re.is_space false (remove_special base)).

Definition sanitize (filename : string) : string :=
  let (base, ext) := splitext filename in
  clean base ++ ext.

(** The sanitized base name is not empty, or there is no extension. *)
Definition stem_survives (filename : string) : bool :=
  let (base, ext) := splitext filename in
  negb (String.eqb (clean base) "") || String.eqb ext "".

(** The enabled transforms of a configuration, in the order sanitize,
    replace, prefix, suffix, sequential number, date stamp. *)
Definition enabled_transforms (strftime_now : Clock) (pattern : Pattern)
    (idx : nat) : list (string -> string) :=
  ((if truthy_flag (p_sanitize pattern) then [sanitize_filename] else [])
   ++ match p_replace pattern with
      | Some (old_text, new_text) =>
          [fun f => replace_text f old_text new_text]
      | None => []
      end
   ++ (if truthy_str (p_prefix pattern)
       then [fun f => add_prefix f (default "" (p_prefix pattern))] else [])
   ++ (if truthy_str (p_suffix pattern)
       then [fun f => add_suffix f (default "" (p_suffix pattern))] else [])
   ++ (if truthy_flag (p_sequential pattern)
       then [fun f => add_sequential_number f idx
                        (default 3 (p_digits pattern))] else [])
   ++ (if truthy_flag (p_date pattern)
       then [add_date_stamp
               (strftime_now idx (default "%Y%m%d" (p_date_format pattern)))]
       else []))%list.

(** Each transform consumes the output of the one before it. *)
Definition compose (ts : list (string -> string)) (f : string) : string :=
  List.fold_left (fun acc t => t acc) ts f.

(** The index, in decimal, with zeros on the left up to [w] digits. *)
Definition zero_padded (w : Z) (idx : nat) : string :=
  zeros (Z.to_nat (w - len (str idx))) ++ str idx.

(** The number a string of decimal digits denotes, after the digits
    already read as [acc]. *)
Definition is_digit (c : ascii) : bool := Re.between 48 57 c.

Fixpoint value_of (s : string) (acc : nat) : nat :=
  match s with
  | "" => acc
  | String c s' => value_of s' (10 * acc + (nat_of_ascii c - 48))%nat
  end.

(** A name with [insert] put immediately before its extension. *)
Definition before_ext (filename insert : string) : string :=
  fst (splitext filename) ++ insert ++ snd (splitext filename).

(** The configuration enables no transform. *)
Definition no_transform (pattern : Pattern) : bool :=
  negb (truthy_flag (p_sanitize pattern))
  && negb (bool_decide (is_Some (p_replace pattern)))
  && negb (truthy_str (p_prefix pattern))
  && negb (truthy_str (p_suffix pattern))
  && negb (truthy_flag (p_sequential pattern))
  && negb (truthy_flag (p_date pattern)).

End Spec.

(** Only the sequential transform, with [w] digits. *)
Definition sequential_only (w : Z) : Pattern :=
  {| p_sanitize := None; p_replace := None; p_prefix := None;
     p_suffix := None; p_sequential := Some true; p_digits := Some w;
     p_date := None; p_date_format := None |}.

Definition prefix_only (s : string) : Pattern :=
  {| p_sanitize := None; p_replace := None; p_prefix := Some s;
     p_suffix := None; p_sequential := None; p_digits := None;
     p_date := None; p_date_format := None |}.

Definition sanitize_only : Pattern :=
  {| p_sanitize := Some true; p_replace := None; p_prefix := None;
     p_suffix := None; p_sequential := None; p_digits := None;
     p_date := None; p_date_format := None |}.

(** A world with nothing printed yet. *)
Definition initial (m : fs) : World :=
  {| files := m; stdout := []; syscalls := [] |}.

(** A clock standing at one date. *)
Definition fixed_clock (date_str : string) : Clock := fun _ _ => date_str.

(** The successful renames in a log of system calls. *)
Definition renamed (log : list Syscall) : nat :=
  length (List.filter (fun c => match c with SysRename _ _ ok => ok end) log).

(** The entries printed as planned. *)
Definition planned (out : list Msg) : nat :=
  length (List.filter
            (fun m => match m with MsgPlan _ _ => true | _ => false end) out).

(** The proposed name and target of an entry. *)
Definition new_name_of (strftime_now : Clock) (pattern : Pattern)
    (entry : nat * path) : string :=
  transform strftime_now pattern (fst entry) (PathLib.name (snd entry)).

Definition target_of (strftime_now : Clock) (pattern : Pattern)
    (entry : nat * path) : path :=
  PathLib.joinpath (PathLib.parent (snd entry))
    (new_name_of strftime_now pattern entry).

Definition changes (strftime_now : Clock) (pattern : Pattern)
    (entry : nat * path) : bool :=
  negb (String.eqb (new_name_of strftime_now pattern entry)
          (PathLib.name (snd entry))).

(** ** Further notions used in the properties *)

(** [t in s] for strings. *)
Fixpoint contains (t s : string) : bool :=
  startswith t s
  || match s with
     | "" => false
     | String _ s' => contains t s'
     end.

(** No underscore follows an underscore. *)
Fixpoint no_double_underscore (s : string) : bool :=
  match s with
  | String a (String b _ as s') =>
      negb (Re.is_underscore a && Re.is_underscore b)
      && no_double_underscore s'
  | _ => true
  end.

Definition starts_with_underscore (s : string) : bool :=
  match s with
  | String a _ => Re.is_underscore a
  | "" => false
  end.

(** What a file system holds, without the paths. *)
Definition inventory (m : fs) : list node :=
  List.map snd (map_to_list m).

(** The calls of [os.rename] logged, and the errors printed. *)
Definition attempts (log : list Syscall) : nat := length log.

Definition rename_errors (out : list Msg) : nat :=
  length (List.filter
            (fun m => match m with MsgRenameError _ _ => true | _ => false end)
            out).

Definition skipped (out : list Msg) : nat :=
  length (List.filter
            (fun m => match m with MsgSkipping _ _ => true | _ => false end)
            out).

(** Only the suffix, the sequential number and the date stamp. *)
Definition suffix_sequential_date (suffix : string) (w : Z) (fmt : string)
    : Pattern :=
  {| p_sanitize := None; p_replace := None; p_prefix := None;
     p_suffix := Some suffix; p_sequential := Some true; p_digits := Some w;
     p_date := Some true; p_date_format := Some fmt |}.

(** ** The URL of a request in api_consumer.py *)

Module ApiConsumer.







End ApiConsumer.

(** ** Sample directories *)

Definition dir_abc : fs :=
  list_to_map [(["d"], Dir); (["d"; "a.txt"], File "A");
               (["d"; "b.txt"], File "B"); (["d"; "c.txt"], File "C")].

Definition dir_abc_numbered : fs :=
  list_to_map [(["d"], Dir); (["d"; "a_01.txt"], File "A");
               (["d"; "b_02.txt"], File "B"); (["d"; "c_03.txt"], File "C")].

Definition dir_photo : fs :=
  list_to_map [(["d"], Dir); (["d"; "photo.png"], File "P")].

Definition dir_ab_b : fs :=
  list_to_map [(["d"], Dir); (["d"; "ab"], File "A"); (["d"; "b"], File "B")].

Definition dir_clash : fs :=
  list_to_map [(["d"], Dir); (["d"; "a!.txt"], File "1");
               (["d"; "a#.txt"], File "2")].

Definition no_flags (directory : path) : Args :=
  {| a_directory := directory; a_prefix := None; a_suffix := None;
     a_replace := None; a_sequential := false; a_digits := 3;
     a_date := false; a_date_format := "%Y%m%d"; a_sanitize := false;
     a_recursive := false; a_execute := true |}.

Definition prefix_flags (directory : path) (prefix : string) : Args :=
  {| a_directory := directory; a_prefix := Some prefix; a_suffix := None;
     a_replace := None; a_sequential := false; a_digits := 3;
     a_date := false; a_date_format := "%Y%m%d"; a_sanitize := false;
     a_recursive := false; a_execute := true |}.

Definition dir_empty : fs := list_to_map [(["d"], Dir)].

(** * Properties *)

(** ** The library model on the values Python gives *)

Example str_examples : str 0 = "0" /\ str 7 = "7" /\ str 120 = "120".
Proof. vm_compute. repeat split; reflexivity. Qed.

Example zfill_examples :
  zfill "7" 3 = "007" /\ zfill "5" (-1) = "5" /\ zfill "1234" 2 = "1234"
  /\ zfill "-5" 4 = "-005" /\ zfill "+" 3 = "+00".
Proof. vm_compute. repeat split; reflexivity. Qed.

Example replace_examples :
  replace "abc" "" "-" = "-a-b-c-" /\ replace "" "" "-" = "-"
  /\ replace "aaa" "aa" "b" = "ba".
Proof. vm_compute. repeat split; reflexivity. Qed.

Example splitext_examples :
  splitext "a.b.c" = ("a.b", ".c") /\ splitext "..txt" = ("..txt", "")
  /\ splitext "x/.b" = ("x/.b", "") /\ splitext "a." = ("a", ".")
  /\ splitext "..a.b" = ("..a", ".b") /\ splitext "x/y.z/w" = ("x/y.z/w", "").
Proof. vm_compute. repeat split; reflexivity. Qed.

Example joinpath_examples :
  PathLib.joinpath ["d"] "x/y" = ["d"; "x"; "y"]
  /\ PathLib.joinpath ["d"] "" = ["d"]
  /\ PathLib.joinpath ["d"] "/abs" = ["abs"]
  /\ PathLib.joinpath ["d"] "./x//y" = ["d"; "x"; "y"]
  /\ PathLib.joinpath ["d"] ".." = ["d"; ".."].
Proof. vm_compute. repeat split; reflexivity. Qed.

Example sorted_by_components :
  sorted [["d"; "a.b"; "y"]; ["d"; "a"; "x"]; ["d"; "a"]] =
  [["d"; "a"]; ["d"; "a"; "x"]; ["d"; "a.b"; "y"]].
Proof. vm_compute. reflexivity. Qed.

(** Applying a prefix to an already prefixed name prefixes it again. *)
Example prefix_twice :
  transform (fixed_clock "") (prefix_only "IMG_") 1 "photo.png" = "IMG_photo.png"
  /\ transform (fixed_clock "") (prefix_only "IMG_") 1 "IMG_photo.png" =
     "IMG_IMG_photo.png".
Proof. vm_compute. split; reflexivity. Qed.

(** ** Strings *)

Lemma append_cons c s t : String c s ++ t = String c (s ++ t).
Proof. reflexivity. Qed.

Lemma append_nil_l t : "" ++ t = t.
Proof. reflexivity. Qed.

Ltac unfold_append := rewrite ?append_cons, ?append_nil_l in *.

Lemma append_nil_r s : s ++ "" = s.
Proof.
  induction s as [|c s IH]; [reflexivity|].
  rewrite append_cons, IH. reflexivity.
Qed.

Lemma append_assoc s t u : (s ++ t) ++ u = s ++ t ++ u.
Proof.
  induction s as [|c s IH]; [reflexivity|].
  rewrite !append_cons, IH. reflexivity.
Qed.

Lemma length_append s t :
  String.length (s ++ t) = (String.length s + String.length t)%nat.
Proof.
  induction s as [|c s IH]; [reflexivity|].
  rewrite append_cons. cbn [String.length]. rewrite IH. reflexivity.
Qed.

Lemma len_nonneg s : 0 <= len s.
Proof. unfold len. lia. Qed.

Lemma occurs_append c s t : occurs c (s ++ t) = occurs c s || occurs c t.
Proof.
  induction s as [|a s IH]; [reflexivity|].
  rewrite append_cons. cbn [occurs]. rewrite IH, orb_assoc. reflexivity.
Qed.

Lemma all_chars_append p s t :
  all_chars p (s ++ t) = all_chars p s && all_chars p t.
Proof.
  induction s as [|a s IH]; [reflexivity|].
  rewrite append_cons. cbn [all_chars]. rewrite IH, andb_assoc. reflexivity.
Qed.

Lemma all_chars_occurs p c s :
  p c = false -> all_chars p s = true -> occurs c s = false.
Proof.
  intros Hc. induction s as [|a s IH]; cbn [all_chars occurs]; [reflexivity|].
  intros [Ha Hs]%andb_true_iff. rewrite IH by exact Hs.
  destruct (Ascii.eqb_spec a c) as [->|]; [congruence|reflexivity].
Qed.

Lemma all_chars_impl (p q : ascii -> bool) s :
  (forall c, p c = true -> q c = true) ->
  all_chars p s = true -> all_chars q s = true.
Proof.
  intros Hpq. induction s as [|a s IH]; cbn [all_chars]; [reflexivity|].
  intros [Ha Hs]%andb_true_iff. rewrite (Hpq _ Ha), IH by exact Hs. reflexivity.
Qed.

Lemma take_append s t : take (String.length s) (s ++ t) = s.
Proof.
  induction s as [|c s IH]; [destruct t; reflexivity|].
  rewrite append_cons. cbn [String.length take]. rewrite IH. reflexivity.
Qed.

Lemma drop_append s t : drop (String.length s) (s ++ t) = t.
Proof.
  induction s as [|c s IH]; [destruct t; reflexivity|].
  rewrite append_cons. cbn [String.length drop]. exact IH.
Qed.

(** The last occurrence of a character splits the string. *)
Lemma occurs_last c s :
  occurs c s = true ->
  exists t u, s = t ++ String c u /\ occurs c u = false.
Proof.
  induction s as [|a s IH]; cbn [occurs]; [discriminate|].
  destruct (occurs c s) eqn:E.
  - intros _. destruct (IH eq_refl) as (t & u & -> & Hu).
    exists (String a t), u. split; [reflexivity|exact Hu].
  - rewrite orb_false_r. intros ->%Ascii.eqb_eq.
    exists "", s. split; [reflexivity|exact E].
Qed.

Lemma rfind_from_absent c s i :
  occurs c s = false -> rfind_from c s i = -1.
Proof.
  revert i. induction s as [|a s IH]; intros i; cbn [occurs rfind_from];
    [reflexivity|].
  intros [Ha Hs]%orb_false_iff. rewrite IH, Ha by exact Hs. reflexivity.
Qed.

Lemma rfind_from_last c t u i :
  0 <= i -> occurs c u = false ->
  rfind_from c (t ++ String c u) i = i + len t.
Proof.
  revert i. induction t as [|a t IH]; intros i Hi Hu.
  - rewrite append_nil_l. cbn [rfind_from].
    rewrite rfind_from_absent by exact Hu.
    rewrite Ascii.eqb_refl. unfold len. cbn. lia.
  - rewrite append_cons. cbn [rfind_from]. rewrite IH by (lia || exact Hu).
    pose proof (len_nonneg t).
    destruct (Z.leb_spec 0 (i + 1 + len t)); [|lia].
    unfold len in *. cbn [String.length]. lia.
Qed.

Lemma rfind_cases c s :
  (occurs c s = false /\ rfind c s = -1)
  \/ exists t u, s = t ++ String c u /\ occurs c u = false
                 /\ rfind c s = len t.
Proof.
  destruct (occurs c s) eqn:E.
  - right. destruct (occurs_last c s E) as (t & u & -> & Hu).
    exists t, u. repeat split; [exact Hu|].
    unfold rfind. rewrite rfind_from_last by (lia || exact Hu). lia.
  - left. split; [reflexivity|]. apply rfind_from_absent. exact E.
Qed.

(** Two splits of one string: the later split point has the shorter tail. *)
Lemma split_tail a b t t' u u' :
  t ++ String a u = t' ++ String b u' ->
  (String.length t' < String.length t)%nat ->
  exists x, u' = x ++ String a u.
Proof.
  revert t. induction t' as [|c t' IH]; intros [|d t] H Hlen;
    cbn [String.length] in Hlen; try lia; unfold_append.
  - injection H as _ H. exists t. symmetry. exact H.
  - injection H as _ H. apply (IH t H). lia.
Qed.

(** ** [splitext] *)

Lemma splitext_plain p : occurs "." p = false -> splitext p = (p, "").
Proof.
  intros H. unfold splitext, rfind. rewrite (rfind_from_absent "." p 0 H).
  destruct (rfind_cases "/" p) as [(_ & E)|(t & u & _ & _ & E)];
    unfold rfind in E; rewrite E; [reflexivity|].
  pose proof (len_nonneg t).
  destruct (Z.ltb_spec (len t) (-1)); [lia|reflexivity].
Qed.

Lemma splitext_stem_ext t u :
  t <> "" -> occurs "." t = false -> occurs "/" t = false ->
  occurs "." u = false -> occurs "/" u = false ->
  splitext (t ++ String "." u) = (t, String "." u).
Proof.
  intros Ht Hdt Hst Hdu Hsu. unfold splitext, rfind.
  rewrite (rfind_from_absent "/")
    by (rewrite occurs_append; cbn [occurs]; rewrite Hst, Hsu; reflexivity).
  rewrite rfind_from_last by (lia || exact Hdu).
  replace (Z.to_nat (0 + len t)) with (String.length t) by (unfold len; lia).
  rewrite take_append, drop_append.
  destruct t as [|a t]; [congruence|].
  cbn [occurs] in Hdt. apply orb_false_iff in Hdt as [Ha _].
  unfold len. cbn [String.length].
  replace (Z.to_nat (0 + Z.of_nat (S (String.length t)) - (-1 + 1)))
    with (S (String.length t)) by lia.
  cbn [has_stem]. unfold char_at. rewrite append_cons.
  change (-1 + 1) with 0. change (0 <? 0) with false.
  change (Z.to_nat 0) with O. cbn [String.get]. rewrite Ha.
  destruct (Z.ltb_spec (-1) (0 + Z.of_nat (S (String.length t))));
    [reflexivity|lia].
Qed.

Lemma splitext_hidden u :
  occurs "." u = false -> occurs "/" u = false ->
  splitext (String "." u) = (String "." u, "").
Proof.
  intros Hdu Hsu. unfold splitext, rfind.
  rewrite (rfind_from_absent "/") by (cbn [occurs]; exact Hsu).
  pose proof (rfind_from_last "." "" u 0 ltac:(lia) Hdu) as E.
  rewrite append_nil_l in E. rewrite E. reflexivity.
Qed.

Lemma splitext_cases p :
  splitext p = (p, "")
  \/ exists t u, p = t ++ String "." u /\ splitext p = (t, String "." u)
                 /\ occurs "." u = false /\ occurs "/" u = false.
Proof.
  unfold splitext.
  destruct (_ && _) eqn:E; [right|left; reflexivity].
  apply andb_true_iff in E as [Hlt _]. apply Z.ltb_lt in Hlt.
  destruct (rfind_cases "." p) as [(_ & Ed)|(t & u & Hp & Hu & Ed)].
  - exfalso. destruct (rfind_cases "/" p) as [(_ & Es)|(t' & u' & _ & _ & Es)];
      pose proof (len_nonneg ""); try pose proof (len_nonneg t'); lia.
  - exists t, u. rewrite Ed. unfold len. rewrite Nat2Z.id.
    rewrite Hp at 2 3. rewrite take_append, drop_append.
    repeat split; try assumption.
    destruct (rfind_cases "/" p) as [(Hs & _)|(t' & u' & Hp' & Hu' & Es)].
    + rewrite Hp, occurs_append in Hs. apply orb_false_iff in Hs as [_ Hs].
      cbn [occurs] in Hs. apply orb_false_iff in Hs as [_ Hs]. exact Hs.
    + rewrite Es, Ed in Hlt. unfold len in Hlt.
      rewrite Hp in Hp'. destruct (split_tail _ _ _ _ _ _ Hp') as [x Hx]; [lia|].
      rewrite Hx, occurs_append in Hu'. apply orb_false_iff in Hu' as [_ Hu'].
      cbn [occurs] in Hu'. apply orb_false_iff in Hu' as [_ Hu']. exact Hu'.
Qed.

Lemma splitext_join p : fst (splitext p) ++ snd (splitext p) = p.
Proof.
  destruct (splitext_cases p) as [E|(t & u & Hp & E & _)]; rewrite E; cbn [fst snd].
  - apply append_nil_r.
  - symmetry. exact Hp.
Qed.

(** ** Regular-expression substitution *)

Lemma span_length cls s :
  (String.length (snd (Re.span cls s)) <= String.length s)%nat.
Proof.
  induction s as [|c s IH]; cbn; [lia|].
  destruct (cls c); cbn; [|lia].
  destruct (Re.span cls s) as [m r]. cbn in *. lia.
Qed.

Lemma collapse_runs_span cls s :
  Spec.collapse_runs cls true s =
  Spec.collapse_runs cls false (snd (Re.span cls s)).
Proof.
  induction s as [|c s IH]; cbn; [reflexivity|].
  destruct (cls c) eqn:E.
  - rewrite IH. destruct (Re.span cls s) as [m r]. reflexivity.
  - cbn. rewrite E. reflexivity.
Qed.

Lemma sub_loop_plus cls fuel s :
  (String.length s <= fuel)%nat ->
  Re.sub_loop fuel (Re.Plus cls) "_" s = Spec.collapse_runs cls false s.
Proof.
  revert s. induction fuel as [|k IH]; intros s Hlen.
  - destruct s; [reflexivity|cbn in Hlen; lia].
  - destruct s as [|c s]; [reflexivity|]. cbn in Hlen.
    cbn [Re.sub_loop Re.match_at Spec.collapse_runs].
    destruct (cls c).
    + rewrite IH by (pose proof (span_length cls s); lia).
      rewrite collapse_runs_span. reflexivity.
    + rewrite IH by lia. reflexivity.
Qed.

Lemma kept_char_special c : Spec.kept_char c = negb (Re.is_special c).
Proof.
  unfold Spec.kept_char, Re.is_special, Re.is_word.
  rewrite negb_involutive.
  destruct (Re.is_alnum c), (Re.is_space c), (Ascii.eqb c "-"),
    (Ascii.eqb c "_"); reflexivity.
Qed.

Lemma sub_loop_class fuel s :
  (String.length s <= fuel)%nat ->
  Re.sub_loop fuel (Re.Class Re.is_special) "" s = Spec.remove_special s.
Proof.
  revert s. induction fuel as [|k IH]; intros s Hlen.
  - destruct s; [reflexivity|cbn in Hlen; lia].
  - destruct s as [|c s]; [reflexivity|]. cbn in Hlen.
    cbn [Re.sub_loop Re.match_at Spec.remove_special].
    rewrite kept_char_special.
    destruct (Re.is_special c); cbn; rewrite IH by lia; reflexivity.
Qed.

Lemma sanitize_filename_spec filename :
  sanitize_filename filename = Spec.sanitize filename.
Proof.
  unfold sanitize_filename, Spec.sanitize, Spec.clean, Re.sub.
  destruct (splitext filename) as [name ext].
  rewrite !sub_loop_plus, sub_loop_class by lia. reflexivity.
Qed.

(** ** Sanitizing *)

Lemma clean_char_not_space c : Spec.clean_char c = true -> Re.is_space c = false.
Proof. destruct c as [[] [] [] [] [] [] [] []]; vm_compute; congruence. Qed.

Lemma clean_char_kept c : Spec.clean_char c = true -> Spec.kept_char c = true.
Proof.
  unfold Spec.clean_char, Spec.kept_char.
  destruct (Re.is_alnum c), (Re.is_space c), (Ascii.eqb c "-"),
    (Ascii.eqb c "_"); cbn; congruence.
Qed.

Lemma kept_not_space_clean c :
  Spec.kept_char c = true -> Re.is_space c = false -> Spec.clean_char c = true.
Proof.
  unfold Spec.clean_char, Spec.kept_char. intros H Hs. rewrite Hs in H.
  destruct (Re.is_alnum c), (Ascii.eqb c "-"), (Ascii.eqb c "_");
    cbn in *; congruence.
Qed.

Lemma remove_special_kept s :
  all_chars Spec.kept_char (Spec.remove_special s) = true.
Proof.
  induction s as [|c s IH]; cbn [Spec.remove_special]; [reflexivity|].
  destruct (Spec.kept_char c) eqn:E; [|exact IH].
  cbn [all_chars]. rewrite E, IH. reflexivity.
Qed.

Lemma collapse_space_clean b s :
  all_chars Spec.kept_char s = true ->
  all_chars Spec.clean_char (Spec.collapse_runs Re.is_space b s) = true.
Proof.
  revert b. induction s as [|c s IH]; intros b; cbn [all_chars Spec.collapse_runs];
    [reflexivity|].
  intros [Hc Hs]%andb_true_iff.
  destruct (Re.is_space c) eqn:E.
  - destruct b; [apply IH; exact Hs|].
    cbn [all_chars]. rewrite IH by exact Hs. reflexivity.
  - cbn [all_chars]. rewrite kept_not_space_clean, IH by assumption. reflexivity.
Qed.

Lemma collapse_underscore_clean b s :
  all_chars Spec.clean_char s = true ->
  all_chars Spec.clean_char (Spec.collapse_runs Re.is_underscore b s) = true.
Proof.
  revert b. induction s as [|c s IH]; intros b; cbn [all_chars Spec.collapse_runs];
    [reflexivity|].
  intros [Hc Hs]%andb_true_iff.
  destruct (Re.is_underscore c) eqn:E.
  - destruct b; [apply IH; exact Hs|].
    cbn [all_chars]. rewrite IH by exact Hs. reflexivity.
  - cbn [all_chars]. rewrite Hc, IH by assumption. reflexivity.
Qed.

Lemma clean_chars s : all_chars Spec.clean_char (Spec.clean s) = true.
Proof.
  unfold Spec.clean. apply collapse_underscore_clean, collapse_space_clean,
    remove_special_kept.
Qed.

Lemma clean_no_dot s : occurs "." (Spec.clean s) = false.
Proof. apply (all_chars_occurs Spec.clean_char); [reflexivity|apply clean_chars]. Qed.

Lemma clean_no_sep s : occurs "/" (Spec.clean s) = false.
Proof. apply (all_chars_occurs Spec.clean_char); [reflexivity|apply clean_chars]. Qed.

Lemma remove_special_id s :
  all_chars Spec.kept_char s = true -> Spec.remove_special s = s.
Proof.
  induction s as [|c s IH]; cbn [all_chars Spec.remove_special]; [reflexivity|].
  intros [-> Hs]%andb_true_iff. rewrite IH by exact Hs. reflexivity.
Qed.

Lemma collapse_runs_id cls b s :
  all_chars (fun c => negb (cls c)) s = true -> Spec.collapse_runs cls b s = s.
Proof.
  revert b. induction s as [|c s IH]; intros b; cbn [all_chars Spec.collapse_runs];
    [reflexivity|].
  intros [Hc Hs]%andb_true_iff. apply negb_true_iff in Hc. rewrite Hc.
  rewrite IH by exact Hs. reflexivity.
Qed.

Lemma collapse_underscore_idem b s :
  Spec.collapse_runs Re.is_underscore b (Spec.collapse_runs Re.is_underscore b s)
  = Spec.collapse_runs Re.is_underscore b s.
Proof.
  revert b. induction s as [|c s IH]; intros b; cbn [Spec.collapse_runs];
    [reflexivity|].
  destruct (Re.is_underscore c) eqn:E.
  - destruct b; [apply IH|].
    cbn [Spec.collapse_runs]. change (Re.is_underscore "_") with true.
    cbn iota. rewrite IH. reflexivity.
  - cbn [Spec.collapse_runs]. rewrite E, IH. reflexivity.
Qed.

Lemma clean_idem s : Spec.clean (Spec.clean s) = Spec.clean s.
Proof.
  unfold Spec.clean at 1.
  rewrite remove_special_id
    by (apply (all_chars_impl Spec.clean_char); [apply clean_char_kept|apply clean_chars]).
  rewrite (collapse_runs_id Re.is_space).
  - unfold Spec.clean. apply collapse_underscore_idem.
  - apply (all_chars_impl Spec.clean_char); [|apply clean_chars].
    intros c Hc. rewrite clean_char_not_space by exact Hc. reflexivity.
Qed.

Lemma sanitize_fixed_plain s :
  occurs "." s = false -> Spec.sanitize s = Spec.clean s.
Proof.
  intros H. unfold Spec.sanitize. rewrite splitext_plain by exact H.
  apply append_nil_r.
Qed.

Lemma sanitize_idem_iff filename :
  Spec.sanitize (Spec.sanitize filename) = Spec.sanitize filename
  <-> Spec.stem_survives filename = true.
Proof.
  unfold Spec.stem_survives.
  destruct (splitext_cases filename) as [E|(t & u & Hp & E & Hdu & Hsu)].
  - unfold Spec.sanitize at 2 3. rewrite E. rewrite String.eqb_refl, orb_true_r.
    rewrite append_nil_r, sanitize_fixed_plain by apply clean_no_dot.
    rewrite clean_idem. easy.
  - unfold Spec.sanitize at 2 3. rewrite E.
    change (String.eqb (String "." u) "") with false. rewrite orb_false_r.
    destruct (String.eqb_spec (Spec.clean t) "") as [Et|Et]; cbn [negb].
    + rewrite Et, append_nil_l. unfold Spec.sanitize.
      rewrite splitext_hidden, append_nil_r by assumption.
      split; [|discriminate]. intros H.
      pose proof (clean_no_dot (String "." u)) as Hd.
      rewrite H in Hd. cbn in Hd. discriminate.
    + unfold Spec.sanitize.
      rewrite splitext_stem_ext
        by (assumption || apply clean_no_dot || apply clean_no_sep).
      rewrite clean_idem. easy.
Qed.

(** ** Decimal numerals and zero filling *)

Lemma digit_value k : (k < 10)%nat -> (nat_of_ascii (digit k) - 48)%nat = k.
Proof. intros H. do 10 (destruct k as [|k]; [reflexivity|]). lia. Qed.

Lemma digit_is_digit k : (k < 10)%nat -> Spec.is_digit (digit k) = true.
Proof. intros H. do 10 (destruct k as [|k]; [reflexivity|]). lia. Qed.

Lemma digit_not_sign k :
  (k < 10)%nat -> Ascii.eqb (digit k) "+" || Ascii.eqb (digit k) "-" = false.
Proof. intros H. do 10 (destruct k as [|k]; [reflexivity|]). lia. Qed.

Lemma str_loop_value fuel n acc :
  (n < fuel)%nat ->
  Spec.value_of (str_loop fuel n acc) 0 = Spec.value_of acc n.
Proof.
  revert n acc. induction fuel as [|k IH]; intros n acc Hn; [lia|].
  cbn [str_loop]. destruct (Nat.ltb_spec n 10) as [Hlt|Hge].
  - cbn [Spec.value_of]. rewrite digit_value by (apply Nat.mod_upper_bound; lia).
    rewrite Nat.mod_small by exact Hlt. reflexivity.
  - rewrite IH.
    + cbn [Spec.value_of].
      rewrite digit_value by (apply Nat.mod_upper_bound; lia).
      f_equal. symmetry. apply Nat.div_mod_eq.
    + pose proof (Nat.div_mod_eq n 10). lia.
Qed.

Lemma str_value n : Spec.value_of (str n) 0 = n.
Proof. unfold str. rewrite str_loop_value by lia. reflexivity. Qed.

Lemma str_loop_digits fuel n acc :
  all_chars Spec.is_digit acc = true ->
  all_chars Spec.is_digit (str_loop fuel n acc) = true.
Proof.
  revert n acc. induction fuel as [|k IH]; intros n acc Hacc; [exact Hacc|].
  cbn [str_loop].
  assert (H : all_chars Spec.is_digit (String (digit (n mod 10)) acc) = true).
  { cbn [all_chars]. rewrite digit_is_digit, Hacc
      by (apply Nat.mod_upper_bound; lia). reflexivity. }
  destruct (n <? 10)%nat; [exact H|apply IH; exact H].
Qed.

Lemma str_digits n : all_chars Spec.is_digit (str n) = true.
Proof. apply str_loop_digits. reflexivity. Qed.

Lemma str_loop_nonempty fuel n acc :
  acc <> "" -> str_loop fuel n acc <> "".
Proof.
  revert n acc. induction fuel as [|k IH]; intros n acc Hacc; [exact Hacc|].
  cbn [str_loop]. destruct (n <? 10)%nat; [discriminate|]. apply IH. discriminate.
Qed.

Lemma str_nonempty n : str n <> "".
Proof.
  unfold str. cbn [str_loop].
  destruct (n <? 10)%nat; [discriminate|]. apply str_loop_nonempty. discriminate.
Qed.

(** On a string of digits [zfill] only puts zeros in front. *)
Lemma zfill_digits s w :
  all_chars Spec.is_digit s = true ->
  zfill s w = zeros (Z.to_nat (w - len s)) ++ s.
Proof.
  unfold zfill. destruct s as [|c s]; [intros _; rewrite append_nil_r; reflexivity|].
  cbn [all_chars]. intros [Hc _]%andb_true_iff.
  replace (Ascii.eqb c "+" || Ascii.eqb c "-") with false; [reflexivity|].
  destruct (Ascii.eqb_spec c "+") as [->|]; [discriminate Hc|].
  destruct (Ascii.eqb_spec c "-") as [->|]; [discriminate Hc|]. reflexivity.
Qed.

Lemma zfill_str n w : zfill (str n) w = Spec.zero_padded w n.
Proof. apply zfill_digits, str_digits. Qed.

Lemma value_of_zeros k s : Spec.value_of (zeros k ++ s) 0 = Spec.value_of s 0.
Proof.
  induction k as [|k IH]; [reflexivity|].
  cbn [zeros]. rewrite append_cons. cbn [Spec.value_of]. exact IH.
Qed.

Lemma all_chars_zeros k : all_chars Spec.is_digit (zeros k) = true.
Proof. induction k as [|k IH]; [reflexivity|]. cbn [zeros all_chars]. exact IH. Qed.

Lemma length_zeros k : String.length (zeros k) = k.
Proof. induction k as [|k IH]; [reflexivity|]. cbn [zeros String.length]. lia. Qed.

(** The padded index is a numeral for the index, of the width asked for
    or as long as the index needs. *)
Lemma zero_padded_numeral w idx :
  all_chars Spec.is_digit (Spec.zero_padded w idx) = true
  /\ Spec.value_of (Spec.zero_padded w idx) 0 = idx
  /\ len (Spec.zero_padded w idx) = Z.max w (len (str idx)).
Proof.
  unfold Spec.zero_padded. repeat split.
  - rewrite all_chars_append, all_chars_zeros, str_digits. reflexivity.
  - rewrite value_of_zeros. apply str_value.
  - unfold len. rewrite length_append, length_zeros. unfold len. lia.
Qed.

Lemma add_sequential_number_spec filename idx w :
  add_sequential_number filename idx w =
  Spec.before_ext filename ("_" ++ Spec.zero_padded w idx).
Proof.
  unfold add_sequential_number, Spec.before_ext.
  destruct (splitext filename) as [name ext]. cbn [fst snd].
  rewrite zfill_str, !append_assoc. reflexivity.
Qed.

(** ** The order on paths and [sorted] *)

Lemma string_compare_refl s : String.compare s s = Eq.
Proof.
  induction s as [|a s IH]; [reflexivity|].
  cbn [String.compare]. unfold Ascii.compare. rewrite N.compare_refl. exact IH.
Qed.

Lemma string_compare_lt_trans a b c :
  String.compare a b = Lt -> String.compare b c = Lt -> String.compare a c = Lt.
Proof.
  intros Hab Hbc.
  assert (Hle : String.le a c).
  { transitivity b; unfold String.le, String.leb; [rewrite Hab|rewrite Hbc]; exact I. }
  unfold String.le, String.leb in Hle.
  destruct (String.compare a c) eqn:E; [|reflexivity|destruct Hle].
  apply String.compare_eq_iff in E. subst c.
  rewrite String.compare_antisym, Hab in Hbc. discriminate.
Qed.

Lemma path_compare_antisym p q :
  PathLib.compare q p = CompOpp (PathLib.compare p q).
Proof.
  revert q. induction p as [|a p IH]; intros [|b q]; cbn [PathLib.compare];
    try reflexivity.
  rewrite (String.compare_antisym b a).
  destruct (String.compare a b); cbn [CompOpp]; [apply IH|reflexivity..].
Qed.

Lemma path_compare_eq p q : PathLib.compare p q = Eq -> p = q.
Proof.
  revert q. induction p as [|a p IH]; intros [|b q]; cbn [PathLib.compare];
    try discriminate; [reflexivity|].
  destruct (String.compare a b) eqn:E; try discriminate.
  apply String.compare_eq_iff in E. intros H. rewrite E, (IH q H). reflexivity.
Qed.

Lemma path_compare_refl p : PathLib.compare p p = Eq.
Proof.
  induction p as [|a p IH]; [reflexivity|].
  cbn [PathLib.compare]. rewrite string_compare_refl. exact IH.
Qed.

Lemma path_compare_lt_trans p q r :
  PathLib.compare p q = Lt -> PathLib.compare q r = Lt ->
  PathLib.compare p r = Lt.
Proof.
  revert q r. induction p as [|a p IH]; intros [|b q] [|c r];
    cbn [PathLib.compare]; try discriminate; try reflexivity.
  destruct (String.compare a b) eqn:Eab; try discriminate;
    destruct (String.compare b c) eqn:Ebc; try discriminate.
  - apply String.compare_eq_iff in Eab, Ebc. subst b c.
    rewrite string_compare_refl. apply IH.
  - apply String.compare_eq_iff in Eab. subst b. rewrite Ebc. reflexivity.
  - apply String.compare_eq_iff in Ebc. subst c. rewrite Eab. reflexivity.
  - rewrite (string_compare_lt_trans a b c Eab Ebc). reflexivity.
Qed.

Lemma path_leb_total p q : PathLib.leb p q = false -> PathLib.leb q p = true.
Proof.
  unfold PathLib.leb. rewrite (path_compare_antisym p q).
  destruct (PathLib.compare p q); cbn; congruence.
Qed.

Lemma path_leb_trans p q r :
  PathLib.leb p q = true -> PathLib.leb q r = true -> PathLib.leb p r = true.
Proof.
  unfold PathLib.leb.
  destruct (PathLib.compare p q) eqn:Epq; try discriminate;
    destruct (PathLib.compare q r) eqn:Eqr; try discriminate; intros _ _.
  - apply path_compare_eq in Epq, Eqr. subst q r.
    rewrite path_compare_refl. reflexivity.
  - apply path_compare_eq in Epq. subst q. rewrite Eqr. reflexivity.
  - apply path_compare_eq in Eqr. subst r. rewrite Epq. reflexivity.
  - rewrite (path_compare_lt_trans p q r Epq Eqr). reflexivity.
Qed.

Lemma sorted_insert_perm p l : Permutation (sorted_insert p l) (p :: l).
Proof.
  induction l as [|q l IH]; cbn [sorted_insert]; [reflexivity|].
  destruct (PathLib.leb p q); [reflexivity|].
  rewrite IH. apply perm_swap.
Qed.

Lemma sorted_perm l : Permutation (sorted l) l.
Proof.
  induction l as [|p l IH]; cbn [sorted]; [reflexivity|].
  rewrite sorted_insert_perm, IH. reflexivity.
Qed.

Lemma sorted_insert_sorted p l :
  StronglySorted path_le l -> StronglySorted path_le (sorted_insert p l).
Proof.
  induction l as [|q l IH]; cbn [sorted_insert]; intros Hs.
  - repeat constructor.
  - inversion Hs as [|? ? Hl Hq]; subst.
    destruct (PathLib.leb p q) eqn:E.
    + constructor; [exact Hs|]. constructor; [exact E|].
      revert Hq. apply List.Forall_impl. intros r Hr.
      exact (path_leb_trans p q r E Hr).
    + constructor; [apply IH; exact Hl|].
      rewrite sorted_insert_perm. constructor; [|exact Hq].
      apply path_leb_total. exact E.
Qed.

Lemma sorted_sorted l : StronglySorted path_le (sorted l).
Proof.
  induction l as [|p l IH]; cbn [sorted]; [constructor|].
  apply sorted_insert_sorted. exact IH.
Qed.

Lemma enumerate_fst {A} start (l : list A) :
  List.map fst (enumerate start l) = List.seq start (length l).
Proof.
  revert start. induction l as [|x l IH]; intros start; [reflexivity|].
  cbn [enumerate List.map fst length List.seq]. rewrite IH. reflexivity.
Qed.

Lemma enumerate_snd {A} start (l : list A) :
  List.map snd (enumerate start l) = l.
Proof.
  revert start. induction l as [|x l IH]; intros start; [reflexivity|].
  cbn [enumerate List.map snd]. rewrite IH. reflexivity.
Qed.

(** ** The claims about names *)

(** C6.  [sanitize_filename] splits off the extension, removes from the
    base name every character that is not alphanumeric, whitespace, hyphen
    or underscore, turns each run of whitespace into one underscore, then
    each run of underscores into one, and puts the extension back as it
    was; ["My Photo #1.jpg"] becomes ["My_Photo_1.jpg"]. *)
Theorem sanitize_matches_description :
  (forall filename, sanitize_filename filename = Spec.sanitize filename)
  /\ sanitize_filename "My Photo #1.jpg" = "My_Photo_1.jpg".
Proof.
  split; [apply sanitize_filename_spec|vm_compute; reflexivity].
Qed.

(** C5, as the spec states it, fails: ["#.txt"] is sanitized to [".txt"],
    which [splitext] reads as a base name without extension, and sanitizing
    again gives ["txt"]. *)
Lemma sanitize_not_idempotent :
  sanitize_filename "#.txt" = ".txt"
  /\ sanitize_filename (sanitize_filename "#.txt") = "txt"
  /\ sanitize_filename (sanitize_filename "#.txt") <> sanitize_filename "#.txt".
Proof. vm_compute. repeat split; try reflexivity. discriminate. Qed.

(** C5, amended.  Sanitizing twice is sanitizing once for every filename
    whose base name keeps at least one character when sanitized, or that
    has no extension. *)
Theorem sanitize_idempotent_when_stem_survives filename :
  Spec.stem_survives filename = true ->
  sanitize_filename (sanitize_filename filename) = sanitize_filename filename.
Proof.
  intros H. rewrite !sanitize_filename_spec. apply sanitize_idem_iff. exact H.
Qed.

Lemma sanitize_idempotent_when_stem_survives_witness :
  sanitize_filename (sanitize_filename "My Photo #1.jpg") =
  sanitize_filename "My Photo #1.jpg".
Proof.
  apply (sanitize_idempotent_when_stem_survives "My Photo #1.jpg").
  vm_compute; reflexivity.
Defined.

(** The condition is exact: in the remaining case, an empty sanitized base
    name before an extension, the second pass changes the name. *)
Lemma sanitize_changes_when_stem_vanishes filename :
  Spec.stem_survives filename = false ->
  sanitize_filename (sanitize_filename filename) <> sanitize_filename filename.
Proof.
  intros H E. rewrite !sanitize_filename_spec in E.
  apply sanitize_idem_iff in E. congruence.
Qed.

(** C3.  With only the sequential transform enabled, the entries are the
    files found, in ascending order of their paths, numbered from 1 to
    their number; the new name of entry [idx] is its name with an
    underscore and [idx], in decimal and filled with zeros up to [w]
    digits, put immediately before the extension.  In a directory holding
    [a.txt], [b.txt] and [c.txt], with two digits and in execute mode, the
    files become [a_01.txt], [b_02.txt] and [c_03.txt] and the count
    reported is 3. *)
Theorem sequential_numbering strftime_now w found :
  let entries := enumerate 1 (sorted found) in
  Permutation (List.map snd entries) found
  /\ StronglySorted path_le (List.map snd entries)
  /\ List.map fst entries = List.seq 1 (length found)
  /\ (forall idx filename,
        transform strftime_now (sequential_only w) idx filename =
        Spec.before_ext filename ("_" ++ Spec.zero_padded w idx)
        /\ all_chars Spec.is_digit (Spec.zero_padded w idx) = true
        /\ Spec.value_of (Spec.zero_padded w idx) 0 = idx
        /\ len (Spec.zero_padded w idx) = Z.max w (len (str idx)))
  /\ (let w' := fst (rename_files strftime_now ["d"] (sequential_only 2)
                       false false (initial dir_abc)) in
      files w' = dir_abc_numbered
      /\ stdout w' = [MsgHeader false ["d"] 3; MsgPlan "a.txt" "a_01.txt";
                      MsgPlan "b.txt" "b_02.txt"; MsgPlan "c.txt" "c_03.txt";
                      MsgSummary false 3]).
Proof.
  cbn zeta. rewrite enumerate_snd, enumerate_fst.
  split; [apply sorted_perm|].
  split; [apply sorted_sorted|].
  split; [rewrite (Permutation_length (sorted_perm found)); reflexivity|].
  split.
  - intros idx filename.
    split; [unfold transform; cbn; apply add_sequential_number_spec|].
    apply zero_padded_numeral.
  - vm_compute. split; reflexivity.
Qed.

(** ** The loop *)

Section Loop.
Variable strftime_now : Clock.
Variable pattern : Pattern.

Lemma files_print m w : files (print m w) = files w.
Proof. reflexivity. Qed.

Lemma syscalls_print m w : syscalls (print m w) = syscalls w.
Proof. reflexivity. Qed.

Lemma rename_loop_cons dry_run e entries st :
  rename_loop strftime_now pattern dry_run (e :: entries) st =
  rename_loop strftime_now pattern dry_run entries
    (process_entry strftime_now pattern dry_run st e).
Proof. reflexivity. Qed.

Lemma rename_loop_app dry_run l1 l2 st :
  rename_loop strftime_now pattern dry_run (l1 ++ l2)%list st =
  rename_loop strftime_now pattern dry_run l2
    (rename_loop strftime_now pattern dry_run l1 st).
Proof. unfold rename_loop. apply fold_left_app. Qed.

(** The three ways an entry can go before any rename is tried. *)
Lemma process_entry_unchanged dry_run w c e :
  changes strftime_now pattern e = false ->
  process_entry strftime_now pattern dry_run (w, c) e = (w, c).
Proof.
  destruct e as [idx p]. unfold changes, new_name_of, process_entry. cbn [fst snd].
  intros H. apply negb_false_iff in H. rewrite H. reflexivity.
Qed.

Lemma process_entry_skipped dry_run w c e :
  changes strftime_now pattern e = true ->
  Os.exists_ (files w) (target_of strftime_now pattern e) = true ->
  process_entry strftime_now pattern dry_run (w, c) e =
  (print (MsgSkipping (PathLib.name (snd e))
            (new_name_of strftime_now pattern e)) w, c).
Proof.
  destruct e as [idx p].
  unfold changes, target_of, new_name_of, process_entry. cbn [fst snd].
  intros H Hex. apply negb_true_iff in H. rewrite H, Hex. reflexivity.
Qed.

Lemma process_entry_planned w c e :
  changes strftime_now pattern e = true ->
  Os.exists_ (files w) (target_of strftime_now pattern e) = false ->
  process_entry strftime_now pattern true (w, c) e =
  (print (MsgPlan (PathLib.name (snd e))
            (new_name_of strftime_now pattern e)) w, c).
Proof.
  destruct e as [idx p].
  unfold changes, target_of, new_name_of, process_entry. cbn [fst snd].
  intros H Hex. apply negb_true_iff in H. rewrite H, Hex. reflexivity.
Qed.

(** A dry run leaves the files, the system-call log and the count as
    they are, entry by entry. *)
Lemma process_entry_dry st e :
  let st' := process_entry strftime_now pattern true st e in
  files (fst st') = files (fst st)
  /\ syscalls (fst st') = syscalls (fst st)
  /\ snd st' = snd st.
Proof.
  destruct st as [w c], e as [idx p]. unfold process_entry. cbn [fst snd].
  destruct (String.eqb _ _); [easy|].
  destruct (Os.exists_ _ _); easy.
Qed.

Lemma rename_loop_dry entries st :
  let st' := rename_loop strftime_now pattern true entries st in
  files (fst st') = files (fst st)
  /\ syscalls (fst st') = syscalls (fst st)
  /\ snd st' = snd st.
Proof.
  revert st. induction entries as [|e entries IH]; intros st; [easy|].
  rewrite rename_loop_cons. cbn zeta.
  destruct (IH (process_entry strftime_now pattern true st e)) as (Hf & Hs & Hc).
  destruct (process_entry_dry st e) as (Hf' & Hs' & Hc').
  rewrite Hf, Hs, Hc. easy.
Qed.

(** In either mode the count grows by the successful renames logged. *)
Lemma renamed_app l1 l2 : renamed (l1 ++ l2) = (renamed l1 + renamed l2)%nat.
Proof. unfold renamed. rewrite List.filter_app, List.length_app. reflexivity. Qed.

Lemma process_entry_count dry_run st e :
  let st' := process_entry strftime_now pattern dry_run st e in
  (snd st' + renamed (syscalls (fst st)) =
   snd st + renamed (syscalls (fst st')))%nat.
Proof.
  destruct st as [w c], e as [idx p]. unfold process_entry. cbn [fst snd].
  destruct (String.eqb _ _); [easy|].
  destruct (Os.exists_ _ _); [easy|].
  destruct dry_run; [easy|].
  unfold path_rename.
  destruct (Os.rename _ _ _); cbn [fst snd syscalls print];
    rewrite renamed_app; cbn; lia.
Qed.

Lemma rename_loop_count dry_run entries st :
  let st' := rename_loop strftime_now pattern dry_run entries st in
  (snd st' + renamed (syscalls (fst st)) =
   snd st + renamed (syscalls (fst st')))%nat.
Proof.
  revert st. induction entries as [|e entries IH]; intros st; [easy|].
  rewrite rename_loop_cons. cbn zeta.
  specialize (IH (process_entry strftime_now pattern dry_run st e)).
  pose proof (process_entry_count dry_run st e) as H.
  cbn zeta in *. lia.
Qed.

(** Entries whose name does not change can be dropped from the loop. *)
Lemma rename_loop_filter_changes dry_run entries st :
  rename_loop strftime_now pattern dry_run entries st =
  rename_loop strftime_now pattern dry_run
    (List.filter (changes strftime_now pattern) entries) st.
Proof.
  revert st. induction entries as [|e entries IH]; intros [w c]; [easy|].
  cbn [List.filter]. destruct (changes strftime_now pattern e) eqn:E.
  - rewrite !rename_loop_cons. apply IH.
  - rewrite rename_loop_cons, process_entry_unchanged by exact E. apply IH.
Qed.

(** The output only grows. *)
Lemma process_entry_stdout dry_run st e :
  exists out,
    stdout (fst (process_entry strftime_now pattern dry_run st e)) =
    (stdout (fst st) ++ out)%list.
Proof.
  destruct st as [w c], e as [idx p]. unfold process_entry. cbn [fst snd].
  destruct (String.eqb _ _); [exists []; cbn; now rewrite List.app_nil_r|].
  destruct (Os.exists_ _ _); [eexists; reflexivity|].
  destruct dry_run; [eexists; reflexivity|].
  unfold path_rename. cbn.
  destruct (Os.rename _ _ _); cbn; [|eexists; reflexivity].
  rewrite <- List.app_assoc. eexists; reflexivity.
Qed.

Lemma rename_loop_stdout dry_run entries st :
  exists out,
    stdout (fst (rename_loop strftime_now pattern dry_run entries st)) =
    (stdout (fst st) ++ out)%list.
Proof.
  revert st. induction entries as [|e entries IH]; intros st.
  - exists []. cbn. now rewrite List.app_nil_r.
  - rewrite rename_loop_cons.
    destruct (IH (process_entry strftime_now pattern dry_run st e)) as [o2 H2].
    destruct (process_entry_stdout dry_run st e) as [o1 H1].
    exists (o1 ++ o2)%list. rewrite H2, H1, List.app_assoc. reflexivity.
Qed.

End Loop.

(** ** The run as a whole *)

Lemma rename_files_dry_frame strftime_now directory pattern recursive w :
  let w' := fst (rename_files strftime_now directory pattern true recursive w) in
  files w' = files w /\ syscalls w' = syscalls w.
Proof.
  unfold rename_files.
  destruct (negb _); [easy|].
  destruct (list_files _ _ _) as [e|[|p found]]; [easy|easy|].
  destruct (rename_loop _ _ _ _ _) as [w2 c2] eqn:E.
  pose proof (rename_loop_dry strftime_now pattern
                (enumerate 1 (sorted (p :: found)))
                (print (MsgHeader true directory (length (p :: found))) w, O)) as H.
  cbn zeta in H. rewrite E in H. cbn [fst snd] in *. easy.
Qed.

(** ** The claims about the run *)

(** C1 (the dry-run half fails on the code).  In a dry run over a
    directory holding [photo.png], with the prefix [IMG_], the plan lists
    one entry that would be renamed, and the count reported is 0:
    [renamed_count] is only incremented next to the rename itself. *)
Theorem dry_run_count_ignores_plan :
  let w' := fst (rename_files (fixed_clock "") ["d"] (prefix_only "IMG_")
                   true false (initial dir_photo)) in
  stdout w' = [MsgHeader true ["d"] 1; MsgPlan "photo.png" "IMG_photo.png";
               MsgSummary true 0; MsgHint]
  /\ planned (stdout w') = 1%nat
  /\ files w' = dir_photo.
Proof. vm_compute. repeat split; reflexivity. Qed.

(** What holds of the count in both modes: it is the number of calls of
    [os.rename] that succeeded during the loop. *)
Lemma count_is_successful_renames strftime_now pattern dry_run entries m :
  let st' := rename_loop strftime_now pattern dry_run entries (initial m, O) in
  snd st' = renamed (syscalls (fst st')).
Proof.
  pose proof (rename_loop_count strftime_now pattern dry_run entries
                (initial m, O)) as H.
  cbn zeta in *. cbn [fst snd initial syscalls] in H. cbn in H. lia.
Qed.

(** C2.  A dry run changes nothing on disk: the map from paths to files
    and their contents is the same after the call, and no [os.rename] was
    issued. *)
Theorem dry_run_no_mutation strftime_now directory pattern recursive w :
  let w' := fst (rename_files strftime_now directory pattern true recursive w) in
  files w' = files w /\ syscalls w' = syscalls w.
Proof. apply rename_files_dry_frame. Qed.

(** C4.  The new name of an entry is the composition of the enabled
    transforms in the order sanitize, replace, prefix, suffix, sequential
    number, date stamp, each applied to the result of the one before. *)
Theorem transform_is_ordered_composition strftime_now pattern idx filename :
  transform strftime_now pattern idx filename =
  Spec.compose (Spec.enabled_transforms strftime_now pattern idx) filename.
Proof.
  unfold transform, Spec.enabled_transforms, Spec.compose.
  destruct (truthy_flag (p_sanitize pattern));
    destruct (p_replace pattern) as [[old_text new_text]|];
    destruct (truthy_str (p_prefix pattern));
    destruct (truthy_str (p_suffix pattern));
    destruct (truthy_flag (p_sequential pattern));
    destruct (truthy_flag (p_date pattern)); reflexivity.
Qed.

(** C7.  An entry whose transformed name equals its name leaves the world
    and the count as they were (nothing printed, no system call, no
    change on disk), and the loop goes on with the remaining entries. *)
Theorem unchanged_entry_is_omitted strftime_now pattern dry_run w c e rest :
  new_name_of strftime_now pattern e = PathLib.name (snd e) ->
  process_entry strftime_now pattern dry_run (w, c) e = (w, c)
  /\ rename_loop strftime_now pattern dry_run (e :: rest) (w, c) =
     rename_loop strftime_now pattern dry_run rest (w, c).
Proof.
  intros H.
  assert (E : changes strftime_now pattern e = false).
  { unfold changes. rewrite H, String.eqb_refl. reflexivity. }
  rewrite rename_loop_cons, process_entry_unchanged by exact E. easy.
Qed.

Lemma unchanged_entry_is_omitted_witness :
  new_name_of (fixed_clock "") sanitize_only (1%nat, ["d"; "a.txt"]) = "a.txt"
  /\ process_entry (fixed_clock "") sanitize_only false (initial dir_abc, O)
       (1%nat, ["d"; "a.txt"]) = (initial dir_abc, O).
Proof.
  split; [vm_compute; reflexivity|].
  apply (unchanged_entry_is_omitted (fixed_clock "") sanitize_only false
           (initial dir_abc) O (1%nat, ["d"; "a.txt"]) []).
  vm_compute; reflexivity.
Defined.

(** C8, as the spec states it, fails in execute mode.  In a directory
    holding [ab] and [b], with the prefix [a], the target [ab] of the entry
    [b] exists before the run; by the time [b] is processed [ab] has been
    renamed to [aab], so [b] is renamed and counted, not skipped. *)
Lemma preexisting_target_not_skipped :
  let e := (2%nat, ["d"; "b"]) in
  let w' := fst (rename_files (fixed_clock "") ["d"] (prefix_only "a")
                   false false (initial dir_ab_b)) in
  Os.exists_ dir_ab_b (target_of (fixed_clock "") (prefix_only "a") e) = true
  /\ enumerate 1 (sorted [["d"; "b"]; ["d"; "ab"]]) =
     [(1%nat, ["d"; "ab"]); e]
  /\ stdout w' = [MsgHeader false ["d"] 2; MsgPlan "ab" "aab";
                  MsgPlan "b" "ab"; MsgSummary false 2]
  /\ syscalls w' = [SysRename ["d"; "ab"] ["d"; "aab"] true;
                    SysRename ["d"; "b"] ["d"; "ab"] true]
  /\ ~ In (MsgSkipping "b" "ab") (stdout w').
Proof.
  vm_compute. repeat split; try reflexivity.
  intros H. repeat (destruct H as [H|H]; [discriminate H|]). exact H.
Qed.

(** C8, amended.  In either mode an entry whose target exists on disk when
    the entry is processed is reported as skipped; the files, the system
    calls and the count stay as they are, and the loop goes on with the
    remaining entries.  In a dry run the same holds of a target that
    exists before the run, whatever entries are processed first. *)
Theorem existing_target_is_skipped strftime_now pattern dry_run w c e rest :
  changes strftime_now pattern e = true ->
  Os.exists_ (files w) (target_of strftime_now pattern e) = true ->
  let skip := MsgSkipping (PathLib.name (snd e))
                (new_name_of strftime_now pattern e) in
  process_entry strftime_now pattern dry_run (w, c) e = (print skip w, c)
  /\ rename_loop strftime_now pattern dry_run (e :: rest) (w, c) =
     rename_loop strftime_now pattern dry_run rest (print skip w, c)
  /\ forall before,
       let st := rename_loop strftime_now pattern true before (w, c) in
       rename_loop strftime_now pattern true (before ++ e :: rest)%list (w, c) =
       rename_loop strftime_now pattern true rest (print skip (fst st), c).
Proof.
  intros Hch Hex skip. split; [|split].
  - apply process_entry_skipped; assumption.
  - rewrite rename_loop_cons, process_entry_skipped by assumption. reflexivity.
  - intros before st. rewrite rename_loop_app, rename_loop_cons.
    fold st. destruct (rename_loop_dry strftime_now pattern before (w, c))
      as (Hf & _ & Hc).
    fold st in Hf, Hc. destruct st as [w1 c1]. cbn [fst snd] in *. subst c1.
    rewrite process_entry_skipped; [reflexivity|assumption|].
    rewrite Hf. assumption.
Qed.

Lemma existing_target_is_skipped_witness :
  process_entry (fixed_clock "") (prefix_only "a") false (initial dir_ab_b, O)
    (2%nat, ["d"; "b"]) =
  (print (MsgSkipping "b" "ab") (initial dir_ab_b), O).
Proof.
  apply (existing_target_is_skipped (fixed_clock "") (prefix_only "a") false
           (initial dir_ab_b) O (2%nat, ["d"; "b"]) []);
    vm_compute; reflexivity.
Defined.

(** C9.  Whether an entry is skipped is decided by the files on disk when
    it is processed, whatever was printed for earlier entries; so in a dry
    run two entries with one and the same target, absent from the disk,
    are both printed as planned. *)
Theorem dry_run_plans_colliding_targets strftime_now pattern w c
    l1 e1 l2 e2 l3 :
  changes strftime_now pattern e1 = true ->
  changes strftime_now pattern e2 = true ->
  target_of strftime_now pattern e1 = target_of strftime_now pattern e2 ->
  Os.exists_ (files w) (target_of strftime_now pattern e1) = false ->
  (forall w1 c1, files w1 = files w ->
     process_entry strftime_now pattern true (w1, c1) e1 =
     (print (MsgPlan (PathLib.name (snd e1))
               (new_name_of strftime_now pattern e1)) w1, c1))
  /\ exists o1 o2 o3,
       stdout (fst (rename_loop strftime_now pattern true
                      (l1 ++ e1 :: l2 ++ e2 :: l3)%list (w, c))) =
       (stdout w ++ o1
        ++ MsgPlan (PathLib.name (snd e1))
             (new_name_of strftime_now pattern e1) :: o2
        ++ MsgPlan (PathLib.name (snd e2))
             (new_name_of strftime_now pattern e2) :: o3)%list.
Proof.
  intros Hc1 Hc2 Ht Hex.
  assert (Hplan : forall e w1 c1, changes strftime_now pattern e = true ->
            target_of strftime_now pattern e = target_of strftime_now pattern e1 ->
            files w1 = files w ->
            process_entry strftime_now pattern true (w1, c1) e =
            (print (MsgPlan (PathLib.name (snd e))
                      (new_name_of strftime_now pattern e)) w1, c1)).
  { intros e w1 c1 Hc Hte Hf. apply process_entry_planned; [exact Hc|].
    rewrite Hf, Hte. exact Hex. }
  split; [intros w1 c1 Hf; apply Hplan; auto|].
  rewrite rename_loop_app, rename_loop_cons, rename_loop_app, rename_loop_cons.
  set (s1 := rename_loop strftime_now pattern true l1 (w, c)).
  destruct (rename_loop_dry strftime_now pattern l1 (w, c)) as (Hf1 & _ & _).
  destruct (rename_loop_stdout strftime_now pattern true l1 (w, c)) as [o1 Ho1].
  fold s1 in Hf1, Ho1. destruct s1 as [w1 c1]. cbn [fst snd] in *.
  rewrite (Hplan e1 w1 c1 Hc1 eq_refl Hf1).
  set (w1' := print _ w1).
  set (s2 := rename_loop strftime_now pattern true l2 (w1', c1)).
  destruct (rename_loop_dry strftime_now pattern l2 (w1', c1)) as (Hf2 & _ & _).
  destruct (rename_loop_stdout strftime_now pattern true l2 (w1', c1)) as [o2 Ho2].
  fold s2 in Hf2, Ho2. destruct s2 as [w2 c2]. cbn [fst snd] in *.
  rewrite (Hplan e2 w2 c2 Hc2 (eq_sym Ht)) by (rewrite Hf2; exact Hf1).
  set (w2' := print _ w2).
  destruct (rename_loop_stdout strftime_now pattern true l3 (w2', c2)) as [o3 Ho3].
  exists o1, o2, o3. rewrite Ho3. subst w2' w1'. cbn [fst stdout print] in *.
  rewrite Ho2, Ho1. rewrite <- !List.app_assoc. reflexivity.
Qed.

Lemma dry_run_plans_colliding_targets_witness :
  target_of (fixed_clock "") sanitize_only (1%nat, ["d"; "a!.txt"]) =
  target_of (fixed_clock "") sanitize_only (2%nat, ["d"; "a#.txt"])
  /\ exists o1 o2 o3,
       stdout (fst (rename_loop (fixed_clock "") sanitize_only true
                      ([] ++ (1%nat, ["d"; "a!.txt"])
                          :: [] ++ (2%nat, ["d"; "a#.txt"]) :: [])%list
                      (initial dir_clash, O))) =
       (stdout (initial dir_clash) ++ o1
        ++ MsgPlan "a!.txt" "a.txt" :: o2 ++ MsgPlan "a#.txt" "a.txt" :: o3)%list.
Proof.
  split; [vm_compute; reflexivity|].
  apply (dry_run_plans_colliding_targets (fixed_clock "") sanitize_only
           (initial dir_clash) O [] (1%nat, ["d"; "a!.txt"]) []
           (2%nat, ["d"; "a#.txt"]) []); vm_compute; reflexivity.
Defined.

(** Without an enabled transform every name is left as it is. *)
Lemma no_transform_identity strftime_now pattern idx filename :
  Spec.no_transform pattern = true ->
  transform strftime_now pattern idx filename = filename.
Proof.
  unfold Spec.no_transform, transform. intros H.
  repeat (apply andb_true_iff in H; destruct H as [H ?]).
  repeat match goal with
         | H : negb _ = true |- _ => apply negb_true_iff in H
         end.
  destruct (p_replace pattern) as [[old_text new_text]|];
    [exfalso; rewrite bool_decide_eq_false in *; eauto|].
  repeat match goal with
         | H : _ = false |- _ => rewrite H
         end.
  reflexivity.
Qed.

Lemma no_transform_loop strftime_now pattern dry_run entries st :
  Spec.no_transform pattern = true ->
  rename_loop strftime_now pattern dry_run entries st = st.
Proof.
  intros H. rewrite rename_loop_filter_changes.
  replace (List.filter (changes strftime_now pattern) entries) with
    (@nil (nat * path)); [reflexivity|].
  induction entries as [|e entries IH]; [reflexivity|].
  cbn [List.filter]. unfold changes at 1, new_name_of.
  rewrite no_transform_identity, String.eqb_refl by exact H. exact IH.
Qed.

Lemma no_transform_build_pattern args :
  Spec.no_transform (build_pattern args) = true ->
  is_empty_pattern (build_pattern args) = true.
Proof.
  unfold Spec.no_transform, build_pattern, is_empty_pattern.
  cbn [p_sanitize p_replace p_prefix p_suffix p_sequential p_digits p_date
       p_date_format].
  destruct (a_sanitize args), (a_replace args), (a_sequential args),
    (a_date args), (truthy_str (a_prefix args)) eqn:Ep,
    (truthy_str (a_suffix args)) eqn:Es;
    cbn; rewrite ?Ep, ?Es; cbn; try discriminate;
    destruct (a_prefix args), (a_suffix args); cbn in *;
    congruence.
Qed.

(** C10.  When the command line enables no transform, [main] prints the
    error and the help text and exits with status 1 without calling the
    pipeline: nothing is renamed.  Called directly with such a
    configuration, [rename_files] renames nothing either. *)
Theorem no_transform_refuses strftime_now args w :
  Spec.no_transform (build_pattern args) = true ->
  main strftime_now args w = (print MsgHelp (print MsgNoPattern w), ExitCode 1)
  /\ files (fst (main strftime_now args w)) = files w
  /\ syscalls (fst (main strftime_now args w)) = syscalls w
  /\ forall directory pattern dry_run recursive,
       Spec.no_transform pattern = true ->
       let w' := fst (rename_files strftime_now directory pattern dry_run
                        recursive w) in
       files w' = files w /\ syscalls w' = syscalls w.
Proof.
  intros H. apply no_transform_build_pattern in H.
  unfold main. rewrite H. repeat split.
  - unfold rename_files. destruct (negb _); [reflexivity|].
    destruct (list_files _ _ _) as [e|[|p found]]; [reflexivity..|].
    rewrite no_transform_loop by assumption. destruct dry_run; reflexivity.
  - unfold rename_files. destruct (negb _); [reflexivity|].
    destruct (list_files _ _ _) as [e|[|p found]]; [reflexivity..|].
    rewrite no_transform_loop by assumption. destruct dry_run; reflexivity.
Qed.

Lemma no_transform_refuses_witness :
  main (fixed_clock "") (no_flags ["d"]) (initial dir_abc) =
  (print MsgHelp (print MsgNoPattern (initial dir_abc)), ExitCode 1).
Proof.
  apply (no_transform_refuses (fixed_clock "") (no_flags ["d"])
           (initial dir_abc)).
  vm_compute; reflexivity.
Defined.

(** * Further properties *)

(** ** What a sanitized name looks like *)

Lemma no_double_underscore_cons a s :
  no_double_underscore (String a s) =
  negb (Re.is_underscore a && starts_with_underscore s)
  && no_double_underscore s.
Proof.
  destruct s as [|b r]; [|reflexivity].
  cbn. rewrite andb_false_r. reflexivity.
Qed.

Lemma collapse_underscore_shape b s :
  no_double_underscore (Spec.collapse_runs Re.is_underscore b s) = true
  /\ (b = true ->
      starts_with_underscore (Spec.collapse_runs Re.is_underscore b s) = false).
Proof.
  revert b. induction s as [|c s IH]; intros b; [split; reflexivity|].
  cbn [Spec.collapse_runs]. destruct (Re.is_underscore c) eqn:E.
  - destruct b; [apply IH|]. split; [|discriminate].
    destruct (IH true) as [H1 H2]. specialize (H2 eq_refl).
    rewrite no_double_underscore_cons, H1, H2, andb_false_r. reflexivity.
  - split; [|intros _; cbn [starts_with_underscore]; exact E].
    destruct (IH false) as [H1 _].
    rewrite no_double_underscore_cons, H1, E. reflexivity.
Qed.

Lemma collapse_underscore_id b s :
  no_double_underscore s = true ->
  (b = true -> starts_with_underscore s = false) ->
  Spec.collapse_runs Re.is_underscore b s = s.
Proof.
  revert b. induction s as [|c s IH]; intros b Hd Hs; [reflexivity|].
  cbn [Spec.collapse_runs].
  rewrite no_double_underscore_cons in Hd.
  apply andb_true_iff in Hd as [Hcs Hd']. apply negb_true_iff in Hcs.
  destruct (Re.is_underscore c) eqn:E.
  - destruct b; [specialize (Hs eq_refl); cbn in Hs; congruence|].
    rewrite IH; [|exact Hd'|intros _; exact Hcs].
    f_equal. unfold Re.is_underscore in E. apply Ascii.eqb_eq in E.
    symmetry. exact E.
  - rewrite IH; [reflexivity|exact Hd'|discriminate].
Qed.

Lemma append_cancel_r s t u : s ++ u = t ++ u -> s = t.
Proof.
  revert t. induction s as [|a s IH]; intros [|b t] H.
  - reflexivity.
  - exfalso. apply (f_equal String.length) in H.
    rewrite !length_append in H. cbn in H. lia.
  - exfalso. apply (f_equal String.length) in H.
    rewrite !length_append in H. cbn in H. lia.
  - rewrite !append_cons in H. injection H as -> H. f_equal. apply IH. exact H.
Qed.

Lemma sanitize_shape filename :
  let base := Spec.clean (fst (splitext filename)) in
  sanitize_filename filename = base ++ snd (splitext filename)
  /\ all_chars Spec.clean_char base = true
  /\ all_chars (fun c => negb (Re.is_space c)) base = true
  /\ no_double_underscore base = true.
Proof.
  cbn zeta. split; [|split; [|split]].
  - rewrite sanitize_filename_spec. unfold Spec.sanitize.
    destruct (splitext filename); reflexivity.
  - apply clean_chars.
  - apply (all_chars_impl Spec.clean_char); [|apply clean_chars].
    intros c Hc. rewrite clean_char_not_space by exact Hc. reflexivity.
  - unfold Spec.clean. apply collapse_underscore_shape.
Qed.

(** X5.  The sanitized name is the extension after a base name made of
    alphanumeric characters, hyphens and underscores only, without
    whitespace and without two underscores in a row. *)
Theorem sanitized_name_shape filename :
  let base := Spec.clean (fst (splitext filename)) in
  sanitize_filename filename = base ++ snd (splitext filename)
  /\ all_chars Spec.clean_char base = true
  /\ all_chars (fun c => negb (Re.is_space c)) base = true
  /\ no_double_underscore base = true.
Proof. apply sanitize_shape. Qed.

(** X6.  The names sanitizing leaves as they are, and so never renames, are
    those whose base name already has that shape. *)
Theorem sanitize_fixes_exactly_clean_names filename :
  sanitize_filename filename = filename
  <-> all_chars Spec.clean_char (fst (splitext filename)) = true
      /\ no_double_underscore (fst (splitext filename)) = true.
Proof.
  destruct (sanitize_shape filename) as (Hs & Hc & _ & Hd).
  cbn zeta in *. rewrite Hs. split.
  - intros H. rewrite <- (splitext_join filename) in H at 3.
    apply append_cancel_r in H. rewrite <- H. split; assumption.
  - intros [Hc' Hd']. rewrite <- (splitext_join filename) at 3. f_equal.
    unfold Spec.clean.
    rewrite remove_special_id
      by (apply (all_chars_impl Spec.clean_char); [apply clean_char_kept|exact Hc']).
    rewrite (collapse_runs_id Re.is_space).
    + apply collapse_underscore_id; [exact Hd'|discriminate].
    + apply (all_chars_impl Spec.clean_char); [|exact Hc'].
      intros c Hcc. rewrite clean_char_not_space by exact Hcc. reflexivity.
Qed.

(** ** Replacing text *)

(** X7.  Without an occurrence of the old text the name is left as it is. *)
Theorem replace_text_absent filename old_text new_text :
  contains old_text filename = false ->
  replace_text filename old_text new_text = filename.
Proof.
  unfold replace_text, replace. intros H.
  destruct old_text as [|o old]; [destruct filename; discriminate H|].
  induction filename as [|c s IH]; [reflexivity|].
  cbn [contains] in H. apply orb_false_iff in H as [Hs Hc].
  cbn [replace_scan]. rewrite Hs, IH by exact Hc. reflexivity.
Qed.

Lemma replace_text_absent_witness :
  replace_text "photo.png" "jpg" "jpeg" = "photo.png".
Proof.
  apply (replace_text_absent "photo.png" "jpg" "jpeg"). vm_compute; reflexivity.
Defined.

Lemma replace_scan_skip old new pre rest :
  replace_scan old new (pre ++ rest) (String.length pre) =
  replace_scan old new rest O.
Proof.
  induction pre as [|a pre IH]; [reflexivity|].
  rewrite append_cons. cbn [String.length replace_scan]. exact IH.
Qed.

Lemma startswith_split t s :
  startswith t s = true -> exists rest, s = t ++ rest.
Proof.
  revert s. induction t as [|a t IH]; intros s H; [exists s; reflexivity|].
  destruct s as [|b s]; [discriminate H|].
  cbn [startswith] in H. apply andb_true_iff in H as [Hab Hts].
  apply Ascii.eqb_eq in Hab. subst b.
  destruct (IH s Hts) as [rest ->]. exists rest. reflexivity.
Qed.

Lemma startswith_append t rest : startswith t (t ++ rest) = true.
Proof.
  induction t as [|a t IH]; [reflexivity|].
  rewrite append_cons. cbn [startswith]. rewrite Ascii.eqb_refl. exact IH.
Qed.

(** An occurrence at the head is replaced and the scan goes on after it. *)
Lemma replace_scan_occurrence o old new rest :
  replace_scan (String o old) new (String o old ++ rest) O =
  new ++ replace_scan (String o old) new rest O.
Proof.
  rewrite append_cons. cbn [replace_scan].
  replace (String.length (String o old) - 1)%nat with (String.length old)
    by (cbn [String.length]; lia).
  rewrite replace_scan_skip, <- append_cons, startswith_append. reflexivity.
Qed.

Lemma replace_scan_same o old n s :
  (String.length s <= n)%nat ->
  replace_scan (String o old) (String o old) s O = s.
Proof.
  revert s. induction n as [|n IH]; intros s Hn.
  - destruct s; [reflexivity|cbn in Hn; lia].
  - destruct s as [|c s]; [reflexivity|].
    destruct (startswith (String o old) (String c s)) eqn:E.
    + destruct (startswith_split _ _ E) as [rest Hrest]. rewrite Hrest.
      rewrite replace_scan_occurrence, IH; [reflexivity|].
      apply (f_equal String.length) in Hrest.
      rewrite length_append in Hrest. cbn [String.length] in *. lia.
    + cbn [replace_scan]. rewrite E, IH; [reflexivity|].
      cbn [String.length] in Hn. lia.
Qed.

Lemma replace_empty_nothing s : replace_empty "" s = s.
Proof.
  induction s as [|c s IH]; [reflexivity|].
  cbn [replace_empty]. rewrite append_nil_l, IH. reflexivity.
Qed.

(** X8.  Replacing a text by itself changes no name. *)
Theorem replace_text_same filename text :
  replace_text filename text text = filename.
Proof.
  unfold replace_text, replace. destruct text as [|o old].
  - apply replace_empty_nothing.
  - apply (replace_scan_same o old (String.length filename)). lia.
Qed.

(** Every occurrence found from the left is replaced: a name made of
    occurrences of the old text only becomes as many copies of the new
    one. *)
Lemma replace_text_occurrence o old new rest :
  replace_text (String o old ++ rest) (String o old) new =
  new ++ replace_text rest (String o old) new.
Proof. unfold replace_text, replace. apply replace_scan_occurrence. Qed.

(** ** Insertions before the extension *)

Lemma rfind_from_append_absent c s t i :
  occurs c t = false -> rfind_from c (s ++ t) i = rfind_from c s i.
Proof.
  intros Ht. revert i. induction s as [|a s IH]; intros i.
  - rewrite append_nil_l. apply rfind_from_absent. exact Ht.
  - rewrite append_cons. cbn [rfind_from]. rewrite IH. reflexivity.
Qed.

Lemma get_append s t n :
  (n < String.length s)%nat -> String.get n (s ++ t) = String.get n s.
Proof.
  revert n. induction s as [|a s IH]; intros n Hn; [cbn in Hn; lia|].
  rewrite append_cons. destruct n as [|n]; [reflexivity|].
  cbn [String.get]. apply IH. cbn in Hn. lia.
Qed.

Lemma char_at_append s t j :
  j < len s -> char_at (s ++ t) j = char_at s j.
Proof.
  intros Hj. unfold char_at. destruct (j <? 0) eqn:E; [reflexivity|].
  apply Z.ltb_ge in E. apply get_append. unfold len in Hj. lia.
Qed.

Lemma has_stem_append s t j n :
  j + Z.of_nat n <= len s ->
  has_stem (s ++ t) j n = has_stem s j n.
Proof.
  revert j. induction n as [|n IH]; intros j Hj; [reflexivity|].
  cbn [has_stem]. rewrite char_at_append by lia.
  destruct (char_at s j) as [c|]; [|reflexivity].
  destruct (Ascii.eqb c "."); [|reflexivity]. apply IH. lia.
Qed.

Lemma has_stem_mono p j n m :
  (n <= m)%nat -> has_stem p j n = true -> has_stem p j m = true.
Proof.
  revert j m. induction n as [|n IH]; intros j m Hnm H; [discriminate H|].
  destruct m as [|m]; [lia|]. cbn [has_stem] in *.
  destruct (char_at p j) as [c|]; [|reflexivity].
  destruct (Ascii.eqb c "."); [|reflexivity]. apply IH; [lia|exact H].
Qed.

(** What [splitext] looks at when it finds an extension. *)
Lemma splitext_split p :
  splitext p = (p, "")
  /\ (rfind "/" p <? rfind "." p)
     && has_stem p (rfind "/" p + 1)
          (Z.to_nat (rfind "." p - (rfind "/" p + 1))) = false
  \/ exists t u,
       p = t ++ String "." u /\ splitext p = (t, String "." u)
       /\ occurs "." u = false /\ occurs "/" u = false
       /\ rfind "/" p < len t
       /\ has_stem p (rfind "/" p + 1)
            (Z.to_nat (len t - (rfind "/" p + 1))) = true.
Proof.
  destruct (_ && _) eqn:C.
  - right. pose proof C as C'.
    apply andb_true_iff in C' as [Hlt Hst]. apply Z.ltb_lt in Hlt.
    destruct (rfind_cases "." p) as [(_ & Ed)|(t & u & Hp & Hu & Ed)].
    { exfalso.
      destruct (rfind_cases "/" p) as [(_ & Es)|(t' & u' & _ & _ & Es)];
        try pose proof (len_nonneg t'); lia. }
    assert (E : splitext p = (t, String "." u)).
    { unfold splitext. rewrite C, Ed. unfold len. rewrite Nat2Z.id.
      rewrite Hp at 1 2. rewrite take_append, drop_append. reflexivity. }
    exists t, u. rewrite Ed in Hlt, Hst. repeat split; try assumption.
    destruct (splitext_cases p) as [E'|(t' & u' & _ & E' & _ & Hsu)];
      rewrite E in E'.
    + apply (f_equal snd) in E'. discriminate E'.
    + injection E' as _ ->. exact Hsu.
  - left. split; [|reflexivity]. unfold splitext. rewrite C. reflexivity.
Qed.

Lemma len_append s t : len (s ++ t) = len s + len t.
Proof. unfold len. rewrite length_append. lia. Qed.

Lemma rfind_lt_len c s : rfind c s < len s \/ (rfind c s = -1).
Proof.
  destruct (rfind_cases c s) as [(_ & E)|(t & u & Hs & _ & E)]; [right; exact E|].
  left. rewrite E, Hs, len_append. unfold len. cbn [String.length]. lia.
Qed.

Lemma rfind_lower c s : -1 <= rfind c s.
Proof.
  destruct (rfind_cases c s) as [(_ & E)|(t & u & Hs & _ & E)]; rewrite E;
    [lia|apply Z.le_trans with 0; [lia|apply len_nonneg]].
Qed.

(** An insertion without dot or slash, put before the extension, leaves
    the extension where it is: the name splits into the longer base name
    and the same extension. *)
Theorem splitext_before_ext filename insert :
  occurs "." insert = false -> occurs "/" insert = false ->
  splitext (Spec.before_ext filename insert) =
  (fst (splitext filename) ++ insert, snd (splitext filename)).
Proof.
  intros Hdi Hsi. unfold Spec.before_ext.
  destruct (splitext_split filename)
    as [(E & C)|(t & u & Hp & E & Hdu & Hsu & Hlt & Hst)];
    rewrite E; cbn [fst snd].
  - rewrite append_nil_r. unfold splitext.
    unfold rfind in *. rewrite !rfind_from_append_absent by assumption.
    replace (has_stem (filename ++ insert) _ _)
      with (has_stem filename (rfind_from "/" filename 0 + 1)
              (Z.to_nat (rfind_from "." filename 0
                         - (rfind_from "/" filename 0 + 1)))).
    + rewrite C. reflexivity.
    + symmetry.
      destruct (Z.le_gt_cases (rfind_from "." filename 0)
                  (rfind_from "/" filename 0)) as [Hle|Hgt].
      * replace (Z.to_nat _) with O by lia. reflexivity.
      * apply has_stem_append.
        destruct (rfind_lt_len "." filename) as [H|H]; unfold rfind in H; [lia|].
        pose proof (rfind_lower "/" filename) as H'. unfold rfind in H'. lia.
  - remember (rfind "/" filename) as r eqn:Er.
    assert (Es : rfind "/" (t ++ insert ++ String "." u) = r).
    { rewrite Er, Hp. unfold rfind.
      rewrite !rfind_from_append_absent;
        [reflexivity|cbn [occurs]; exact Hsu|].
      rewrite occurs_append, Hsi. cbn [occurs]. exact Hsu. }
    unfold splitext. rewrite Es. rewrite <- append_assoc.
    assert (Ed : rfind "." ((t ++ insert) ++ String "." u) = len (t ++ insert)).
    { unfold rfind. rewrite rfind_from_last by (lia || exact Hdu). lia. }
    rewrite Ed. rewrite len_append.
    pose proof (len_nonneg insert) as Hi.
    assert (Hr : -1 <= r) by (rewrite Er; apply rfind_lower).
    destruct (Z.ltb_spec r (len t + len insert)); [|lia].
    assert (Hst' : has_stem ((t ++ insert) ++ String "." u) (r + 1)
                     (Z.to_nat (len t + len insert - (r + 1))) = true).
    { apply (has_stem_mono _ _ (Z.to_nat (len t - (r + 1)))); [lia|].
      rewrite append_assoc, has_stem_append by lia.
      rewrite Hp, has_stem_append in Hst by lia. exact Hst. }
    rewrite Hst'. cbn [andb].
    replace (Z.to_nat (len t + len insert)) with (String.length (t ++ insert))
      by (rewrite length_append; unfold len; lia).
    rewrite take_append, drop_append. reflexivity.
Qed.

(** ** Suffix, sequential number and date stamp *)

Lemma zero_padded_plain w idx :
  occurs "." ("_" ++ Spec.zero_padded w idx) = false
  /\ occurs "/" ("_" ++ Spec.zero_padded w idx) = false.
Proof.
  destruct (zero_padded_numeral w idx) as (H & _ & _).
  split; rewrite append_cons, append_nil_l; cbn [occurs].
  - rewrite (all_chars_occurs Spec.is_digit "." _ eq_refl H). reflexivity.
  - rewrite (all_chars_occurs Spec.is_digit "/" _ eq_refl H). reflexivity.
Qed.

Lemma splitext_add_suffix filename suffix :
  occurs "." suffix = false -> occurs "/" suffix = false ->
  splitext (add_suffix filename suffix) =
  (fst (splitext filename) ++ suffix, snd (splitext filename)).
Proof.
  intros Hd Hs. rewrite <- (splitext_before_ext filename suffix Hd Hs).
  unfold add_suffix, Spec.before_ext. destruct (splitext filename); reflexivity.
Qed.

(** X9.  A suffix without dot or slash goes between the base name and the
    extension, which stays the extension of the new name. *)
Theorem add_suffix_keeps_extension filename suffix :
  occurs "." suffix = false -> occurs "/" suffix = false ->
  splitext (add_suffix filename suffix) =
  (fst (splitext filename) ++ suffix, snd (splitext filename)).
Proof. apply splitext_add_suffix. Qed.

Lemma add_suffix_keeps_extension_witness :
  splitext (add_suffix "archive.tar.gz" "_old") = ("archive.tar_old", ".gz").
Proof.
  apply (add_suffix_keeps_extension "archive.tar.gz" "_old"); reflexivity.
Defined.

(** X10.  Two such suffixes in a row are one suffix. *)
Theorem add_suffix_composes filename s1 s2 :
  occurs "." s1 = false -> occurs "/" s1 = false ->
  add_suffix (add_suffix filename s1) s2 = add_suffix filename (s1 ++ s2).
Proof.
  intros Hd Hs. unfold add_suffix at 1.
  rewrite (splitext_add_suffix filename s1 Hd Hs).
  unfold add_suffix. destruct (splitext filename) as [name ext]. cbn [fst snd].
  rewrite !append_assoc. reflexivity.
Qed.

Lemma add_suffix_composes_witness :
  add_suffix (add_suffix "a.txt" "_x") "_y" = add_suffix "a.txt" "_x_y".
Proof. apply (add_suffix_composes "a.txt" "_x" "_y"); reflexivity. Defined.

Lemma splitext_add_sequential_number filename idx w :
  splitext (add_sequential_number filename idx w) =
  (fst (splitext filename) ++ "_" ++ Spec.zero_padded w idx,
   snd (splitext filename)).
Proof.
  rewrite add_sequential_number_spec.
  destruct (zero_padded_plain w idx) as [Hd Hs].
  apply splitext_before_ext; assumption.
Qed.

(** X11.  The sequential number never disturbs the extension, whatever the name
    and the width. *)
Theorem sequential_number_keeps_extension filename idx w :
  splitext (add_sequential_number filename idx w) =
  (fst (splitext filename) ++ "_" ++ Spec.zero_padded w idx,
   snd (splitext filename)).
Proof. apply splitext_add_sequential_number. Qed.

(** X12.  The index can be read back from the new name: for one name, distinct
    indices give distinct new names. *)
Theorem sequential_number_injective filename i j w :
  add_sequential_number filename i w = add_sequential_number filename j w ->
  i = j.
Proof.
  rewrite !add_sequential_number_spec. unfold Spec.before_ext. intros H.
  apply String.app_inj in H. apply append_cancel_r in H. rewrite !append_cons, !append_nil_l in H.
  injection H as H.
  destruct (zero_padded_numeral w i) as (_ & Hi & _).
  destruct (zero_padded_numeral w j) as (_ & Hj & _).
  rewrite <- Hi, <- Hj, H. reflexivity.
Qed.

Lemma sequential_number_injective_witness :
  add_sequential_number "a.txt" 7 3 = add_sequential_number "a.txt" 7 3
  /\ 7%nat = 7%nat.
Proof.
  split; [reflexivity|].
  apply (sequential_number_injective "a.txt" 7 7 3). reflexivity.
Defined.

(** X13.  With suffix, sequential number and date stamp enabled, the new name
    is the base name, the suffix, the number, the date and the extension,
    in this order. *)
Theorem suffix_number_date_layout strftime_now suffix w fmt idx filename :
  occurs "." suffix = false -> occurs "/" suffix = false ->
  occurs "." (strftime_now idx fmt) = false ->
  occurs "/" (strftime_now idx fmt) = false ->
  transform strftime_now (suffix_sequential_date suffix w fmt) idx filename =
  fst (splitext filename) ++ suffix ++ "_" ++ Spec.zero_padded w idx
  ++ "_" ++ strftime_now idx fmt ++ snd (splitext filename).
Proof.
  intros Hd Hs Hdd Hsd. unfold transform, suffix_sequential_date.
  cbn -[add_suffix add_sequential_number add_date_stamp truthy_str].
  change (truthy_str None) with false. cbn iota.
  set (named := if truthy_str (Some suffix) then add_suffix filename suffix
                else filename).
  assert (E1 : splitext named =
               (fst (splitext filename) ++ suffix, snd (splitext filename))).
  { subst named. destruct suffix as [|c s]; cbn [truthy_str].
    - rewrite append_nil_r. destruct (splitext filename); reflexivity.
    - apply splitext_add_suffix; assumption. }
  unfold add_date_stamp.
  rewrite splitext_add_sequential_number, E1. cbn [fst snd].
  rewrite !append_assoc. reflexivity.
Qed.

Lemma suffix_number_date_layout_witness :
  transform (fixed_clock "20260101")
    (suffix_sequential_date "_v2" 3 "%Y%m%d") 7 "report.final.pdf" =
  "report.final" ++ "_v2" ++ "_" ++ "007" ++ "_" ++ "20260101" ++ ".pdf".
Proof.
  apply (suffix_number_date_layout (fixed_clock "20260101") "_v2" 3 "%Y%m%d"
           7 "report.final.pdf"); reflexivity.
Defined.

(** ** The prefix *)

Lemma append_grows p f : p <> "" -> p ++ f <> f.
Proof.
  intros Hp H. apply (f_equal String.length) in H.
  rewrite length_append in H. destruct p; [congruence|cbn in H; lia].
Qed.

(** X14.  A non-empty prefix changes every name, also one that already starts
    with it: a second run prefixes again. *)
Theorem prefix_renames_every_name strftime_now prefix idx filename :
  prefix <> "" ->
  transform strftime_now (prefix_only prefix) idx filename = prefix ++ filename
  /\ transform strftime_now (prefix_only prefix) idx filename <> filename
  /\ transform strftime_now (prefix_only prefix) idx
       (transform strftime_now (prefix_only prefix) idx filename) =
     prefix ++ prefix ++ filename.
Proof.
  intros Hp.
  assert (E : forall f, transform strftime_now (prefix_only prefix) idx f =
                        prefix ++ f).
  { intros f. unfold transform, prefix_only. cbn.
    destruct prefix; [congruence|reflexivity]. }
  rewrite !E. repeat split. apply append_grows. exact Hp.
Qed.

Lemma prefix_renames_every_name_witness :
  transform (fixed_clock "") (prefix_only "IMG_") 1 "IMG_photo.png" =
  "IMG_" ++ "IMG_photo.png".
Proof.
  apply (prefix_renames_every_name (fixed_clock "") "IMG_" 1 "IMG_photo.png").
  discriminate.
Defined.

(** ** The order of processing *)

Lemma path_le_antisym p q : path_le p q -> path_le q p -> p = q.
Proof.
  unfold path_le, PathLib.leb. rewrite (path_compare_antisym p q).
  destruct (PathLib.compare p q) eqn:E; cbn [CompOpp]; try discriminate.
  intros _ _. apply path_compare_eq. exact E.
Qed.

(** X4.  The order in which the directory is listed does not matter: two
    listings of the same files are processed in the same order, with the
    same numbers. *)
Theorem processing_order_independent_of_listing found found' :
  Permutation found found' ->
  enumerate 1 (sorted found) = enumerate 1 (sorted found').
Proof.
  intros H. f_equal.
  apply (StronglySorted_unique_strong path_le).
  - intros p q _ _. apply path_le_antisym.
  - apply sorted_sorted.
  - apply sorted_sorted.
  - rewrite !sorted_perm. exact H.
Qed.

Lemma processing_order_independent_of_listing_witness :
  enumerate 1 (sorted [["d"; "b.txt"]; ["d"; "a.txt"]]) =
  enumerate 1 (sorted [["d"; "a.txt"]; ["d"; "b.txt"]]).
Proof.
  apply (processing_order_independent_of_listing
           [["d"; "b.txt"]; ["d"; "a.txt"]] [["d"; "a.txt"]; ["d"; "b.txt"]]).
  apply perm_swap.
Defined.

(** ** Further properties of the run *)

Section Accounting.
Variable strftime_now : Clock.
Variable pattern : Pattern.

Lemma planned_app l1 l2 : planned (l1 ++ l2) = (planned l1 + planned l2)%nat.
Proof. unfold planned. rewrite List.filter_app, List.length_app. reflexivity. Qed.

Lemma rename_errors_app l1 l2 :
  rename_errors (l1 ++ l2) = (rename_errors l1 + rename_errors l2)%nat.
Proof.
  unfold rename_errors. rewrite List.filter_app, List.length_app. reflexivity.
Qed.

(** In execute mode every plan line is followed by one call of
    [os.rename], which succeeds or is answered by one error line. *)
Lemma process_entry_accounting st e :
  let st' := process_entry strftime_now pattern false st e in
  (planned (stdout (fst st')) + attempts (syscalls (fst st)) =
   planned (stdout (fst st)) + attempts (syscalls (fst st')))%nat
  /\ (rename_errors (stdout (fst st')) + renamed (syscalls (fst st'))
      + attempts (syscalls (fst st)) =
      rename_errors (stdout (fst st)) + renamed (syscalls (fst st))
      + attempts (syscalls (fst st')))%nat.
Proof.
  destruct st as [w c], e as [idx p]. cbn zeta. unfold process_entry.
  cbn [fst snd].
  destruct (String.eqb _ _); [split; reflexivity|].
  destruct (Os.exists_ _ _).
  { cbn [fst snd print stdout syscalls].
    rewrite planned_app, rename_errors_app. cbn. split; lia. }
  unfold path_rename, attempts.
  destruct (Os.rename _ _ _); cbn [fst snd print stdout syscalls];
    rewrite ?planned_app, ?rename_errors_app, ?renamed_app, ?List.length_app;
    cbn; split; lia.
Qed.

Lemma rename_loop_accounting entries st :
  let st' := rename_loop strftime_now pattern false entries st in
  (planned (stdout (fst st')) + attempts (syscalls (fst st)) =
   planned (stdout (fst st)) + attempts (syscalls (fst st')))%nat
  /\ (rename_errors (stdout (fst st')) + renamed (syscalls (fst st'))
      + attempts (syscalls (fst st)) =
      rename_errors (stdout (fst st)) + renamed (syscalls (fst st))
      + attempts (syscalls (fst st')))%nat.
Proof.
  revert st. induction entries as [|e entries IH]; intros st; [split; reflexivity|].
  rewrite rename_loop_cons. cbn zeta.
  specialize (IH (process_entry strftime_now pattern false st e)).
  pose proof (process_entry_accounting st e) as H.
  cbn zeta in *. lia.
Qed.

End Accounting.

(** What [rename_files] prints around the loop holds no plan or error
    line, and the run ends with the summary. *)
Lemma rename_files_unfold strftime_now directory pattern dry_run recursive w
    p found :
  Os.exists_ (files w) directory = true ->
  list_files (files w) directory recursive = inr (p :: found) ->
  let st := rename_loop strftime_now pattern dry_run
              (enumerate 1 (sorted (p :: found)))
              (print (MsgHeader dry_run directory (length (p :: found))) w, O) in
  rename_files strftime_now directory pattern dry_run recursive w =
  (let w2 := print (MsgSummary dry_run (snd st)) (fst st) in
   if dry_run then print MsgHint w2 else w2, Returned).
Proof.
  intros Hex Hls. unfold rename_files. rewrite Hex, Hls. cbn [negb].
  cbn zeta. destruct (rename_loop _ _ _ _ _) as [w2 c2]. reflexivity.
Qed.

(** X1.  In execute mode the line that ends the run states the number of
    renames that succeeded. *)
Theorem execute_summary_counts_renames strftime_now directory pattern
    recursive m n :
  let w' := fst (rename_files strftime_now directory pattern false recursive
                   (initial m)) in
  List.last (stdout w') MsgHelp = MsgSummary false n ->
  n = renamed (syscalls w').
Proof.
  cbn zeta. unfold rename_files.
  destruct (negb _); [cbn; discriminate|].
  destruct (list_files _ _ _) as [e|[|p found]]; [cbn; discriminate..|].
  destruct (rename_loop _ _ _ _ _) as [w2 c2] eqn:E.
  cbn [fst print stdout syscalls]. rewrite List.last_last.
  intros [= <-].
  pose proof (rename_loop_count strftime_now pattern false
                (enumerate 1 (sorted (p :: found)))
                (print (MsgHeader false directory (length (p :: found)))
                   (initial m), O)) as H.
  cbn zeta in H. rewrite E in H. cbn in H. lia.
Qed.

(** X2.  In execute mode, over the whole run: as many calls of [os.rename] as
    plan lines, each of them a success or an error line. *)
Theorem execute_accounting strftime_now directory pattern recursive m :
  let w' := fst (rename_files strftime_now directory pattern false recursive
                   (initial m)) in
  planned (stdout w') = attempts (syscalls w')
  /\ attempts (syscalls w') =
     (renamed (syscalls w') + rename_errors (stdout w'))%nat.
Proof.
  cbn zeta. unfold rename_files.
  destruct (negb _); [cbn; split; reflexivity|].
  destruct (list_files _ _ _) as [e|[|p found]]; [cbn; split; reflexivity..|].
  destruct (rename_loop _ _ _ _ _) as [w2 c2] eqn:E.
  pose proof (rename_loop_accounting strftime_now pattern
                (enumerate 1 (sorted (p :: found)))
                (print (MsgHeader false directory (length (p :: found)))
                   (initial m), O)) as H.
  cbn zeta in H. rewrite E in H.
  cbn [fst snd print stdout syscalls initial] in *.
  rewrite planned_app, rename_errors_app in *. cbn in *. lia.
Qed.

Lemma execute_summary_counts_renames_witness :
  3%nat = renamed (syscalls (fst (rename_files (fixed_clock "") ["d"]
                                    (sequential_only 2) false false
                                    (initial dir_abc)))).
Proof.
  apply (execute_summary_counts_renames (fixed_clock "") ["d"]
           (sequential_only 2) false dir_abc 3).
  vm_compute; reflexivity.
Defined.

(** ** Nothing is lost or overwritten *)

Lemma node_at_lookup (m : fs) p n :
  Os.node_at m p = n -> p <> [] -> m !! p = n.
Proof. destruct p; [congruence|]. intros <- _. reflexivity. Qed.

(** A rename onto a free target moves one entry of the map. *)
Lemma os_rename_moves (m m' : fs) src dst :
  Os.exists_ m dst = false ->
  Os.rename m src dst = inr m' ->
  exists s t content,
    m !! s = Some (File content) /\ m !! t = None
    /\ m' = <[t := File content]> (delete s m).
Proof.
  unfold Os.exists_, Os.stat, Os.rename. intros Hex Hrn.
  destruct (Os.resolve m [] src) as [s|]; [|discriminate].
  destruct (Os.resolve m [] dst) as [t|]; [|discriminate].
  destruct (Os.node_at m s) as [[content|]|] eqn:Es; try discriminate.
  destruct (Os.node_at m t) as [nt|] eqn:Et; [discriminate|].
  destruct (Os.is_dir m (PathLib.parent t)); [|discriminate].
  injection Hrn as <-.
  exists s, t, content. repeat split.
  - apply node_at_lookup; [exact Es|]. intros ->. discriminate.
  - apply node_at_lookup; [exact Et|]. intros ->. discriminate.
Qed.

Lemma os_rename_inventory (m m' : fs) src dst :
  Os.exists_ m dst = false ->
  Os.rename m src dst = inr m' ->
  Permutation (inventory m') (inventory m)
  /\ forall p, m' !! p = Some Dir <-> m !! p = Some Dir.
Proof.
  intros Hex Hrn.
  destruct (os_rename_moves m m' src dst Hex Hrn) as (s & t & c & Hs & Ht & ->).
  assert (Hne : s <> t) by congruence.
  split.
  - unfold inventory.
    rewrite map_to_list_insert by (rewrite lookup_delete_ne; assumption).
    rewrite <- (map_to_list_delete m s (File c) Hs). reflexivity.
  - intros p. destruct (decide (p = t)) as [->|Hpt].
    + rewrite lookup_insert_eq, Ht. split; discriminate.
    + rewrite lookup_insert_ne by congruence.
      destruct (decide (p = s)) as [->|Hps].
      * rewrite lookup_delete_eq, Hs. split; discriminate.
      * rewrite lookup_delete_ne by congruence. reflexivity.
Qed.

Section Inventory.
Variable strftime_now : Clock.
Variable pattern : Pattern.

Lemma process_entry_inventory dry_run st e :
  let st' := process_entry strftime_now pattern dry_run st e in
  Permutation (inventory (files (fst st'))) (inventory (files (fst st)))
  /\ forall p, files (fst st') !! p = Some Dir <-> files (fst st) !! p = Some Dir.
Proof.
  destruct st as [w c], e as [idx p]. cbn zeta. unfold process_entry.
  cbn [fst snd].
  destruct (String.eqb _ _); [split; reflexivity|].
  destruct (Os.exists_ _ _) eqn:Hex; [split; reflexivity|].
  destruct dry_run; [split; reflexivity|].
  unfold path_rename. cbn [print files].
  destruct (Os.rename _ _ _) as [err|m'] eqn:Hrn; cbn [fst files print];
    [split; reflexivity|].
  exact (os_rename_inventory _ _ _ _ Hex Hrn).
Qed.

Lemma rename_loop_inventory dry_run entries st :
  let st' := rename_loop strftime_now pattern dry_run entries st in
  Permutation (inventory (files (fst st'))) (inventory (files (fst st)))
  /\ forall p, files (fst st') !! p = Some Dir <-> files (fst st) !! p = Some Dir.
Proof.
  revert st. induction entries as [|e entries IH]; intros st; [split; reflexivity|].
  rewrite rename_loop_cons. cbn zeta.
  destruct (IH (process_entry strftime_now pattern dry_run st e)) as [IH1 IH2].
  destruct (process_entry_inventory dry_run st e) as [H1 H2].
  split; [rewrite IH1; exact H1|].
  intros p. rewrite IH2. apply H2.
Qed.

End Inventory.

(** X3.  In either mode a run keeps every file's content and every directory:
    the nodes on disk are the same up to the paths of files, so no file is
    overwritten or removed. *)
Theorem run_keeps_inventory strftime_now directory pattern dry_run recursive w :
  let w' := fst (rename_files strftime_now directory pattern dry_run recursive
                   w) in
  Permutation (inventory (files w')) (inventory (files w))
  /\ forall p, files w' !! p = Some Dir <-> files w !! p = Some Dir.
Proof.
  cbn zeta. unfold rename_files.
  destruct (negb _); [split; reflexivity|].
  destruct (list_files _ _ _) as [e|[|p found]]; [split; reflexivity..|].
  destruct (rename_loop _ _ _ _ _) as [w2 c2] eqn:E.
  pose proof (rename_loop_inventory strftime_now pattern dry_run
                (enumerate 1 (sorted (p :: found)))
                (print (MsgHeader dry_run directory (length (p :: found))) w, O))
    as H.
  cbn zeta in H. rewrite E in H. cbn [fst files print] in H.
  destruct dry_run; exact H.
Qed.

(** ** Directories with nothing to rename *)

(** X15.  A path that exists but names a regular file: without [--recursive]
    listing it raises [NotADirectoryError], which nothing catches; with
    [--recursive] it is reported as holding no files.  Nothing is renamed
    either way. *)
Theorem directory_is_regular_file strftime_now directory pattern dry_run w
    content :
  Os.stat (files w) directory = Some (File content) ->
  rename_files strftime_now directory pattern dry_run false w =
    (w, Raised NotADirectoryError)
  /\ rename_files strftime_now directory pattern dry_run true w =
     (print (MsgNoFiles directory) w, Returned).
Proof.
  intros H. unfold rename_files, Os.exists_, list_files, Os.iterdir_files,
    Os.rglob_files. rewrite H. split; reflexivity.
Qed.

Lemma directory_is_regular_file_witness :
  rename_files (fixed_clock "") ["d"; "a.txt"] (prefix_only "x") false false
    (initial dir_abc) = (initial dir_abc, Raised NotADirectoryError).
Proof.
  apply (directory_is_regular_file (fixed_clock "") ["d"; "a.txt"]
           (prefix_only "x") false (initial dir_abc) "A").
  vm_compute; reflexivity.
Defined.

(** X16.  A missing directory and a directory without files end the script with
    one message and exit status 0, in either mode. *)
Theorem nothing_to_do_exits_zero strftime_now args w :
  is_empty_pattern (build_pattern args) = false ->
  (Os.exists_ (files w) (a_directory args) = false ->
   main strftime_now args w =
   (print (MsgNoDirectory (a_directory args)) w, ExitCode 0))
  /\ (Os.exists_ (files w) (a_directory args) = true ->
      list_files (files w) (a_directory args) (a_recursive args) = inr [] ->
      main strftime_now args w =
      (print (MsgNoFiles (a_directory args)) w, ExitCode 0)).
Proof.
  intros Hp. unfold main, rename_files. rewrite Hp. split.
  - intros ->. reflexivity.
  - intros -> ->. reflexivity.
Qed.

(** ** The files found *)




(** ** Request URLs in api_consumer.py *)

Module ApiConsumerFacts.
Import ApiConsumer.




End ApiConsumerFacts.


Lemma nothing_to_do_exits_zero_witness :
  main (fixed_clock "") (prefix_flags ["nowhere"] "x") (initial dir_abc) =
  (print (MsgNoDirectory ["nowhere"]) (initial dir_abc), ExitCode 0).
Proof.
  apply (nothing_to_do_exits_zero (fixed_clock "")
           (prefix_flags ["nowhere"] "x") (initial dir_abc));
    vm_compute; reflexivity.
Defined.
